(** * Taurus Selenium helpers ([bzt/resources/selenium_extras.py])

    A shallow embedding of the helper module and the proofs of its
    specification.  Python functions become Rocq functions in a small
    state-and-exception monad over the ambient context (thread store and
    driver); the JavaScript snippets sent to the page become functions on
    the page's [window] object, a finite map from property names to
    JavaScript values. *)

From Stdlib Require Import ZArith NArith List String Ascii Bool Lia.
From Stdlib Require Import DecimalString DecimalN DecimalNat.
From stdpp Require Import base option list strings gmap.

Local Open Scope string_scope.
Set Warnings "-register-all".

(** ** Python strings

    A character is a code point below 256; the string methods the module
    calls are modelled on that range. *)
Module PyStr.

Definition code (c : ascii) : N := N_of_ascii c.

(** [str.lower] on one character: A-Z and the Latin-1 capitals
    (U+00C0..U+00DE without the multiplication sign). *)
Definition lower_char (c : ascii) : ascii :=
  let n := code c in
  if ((65 <=? n) && (n <=? 90))%N
     || ((192 <=? n) && (n <=? 222) && negb (n =? 215))%N
  then ascii_of_N (n + 32) else c.

Fixpoint lower (s : string) : string :=
  match s with
  | EmptyString => EmptyString
  | String c s' => String (lower_char c) (lower s')
  end.

Definition is_ascii_digit (c : ascii) : bool :=
  ((48 <=? code c) && (code c <=? 57))%N.

(** [str.isdigit] on one character: the decimal digits and the
    superscripts one, two and three. *)
Definition isdigit_char (c : ascii) : bool :=
  is_ascii_digit c
  || (code c =? 178)%N || (code c =? 179)%N || (code c =? 185)%N.

Fixpoint all_chars (p : ascii -> bool) (s : string) : bool :=
  match s with
  | EmptyString => true
  | String c s' => p c && all_chars p s'
  end.

(** [str.isdigit]: false on the empty string. *)
Definition isdigit (s : string) : bool :=
  match s with
  | EmptyString => false
  | _ => all_chars isdigit_char s
  end.

(** [s.startswith(p)] *)
Fixpoint startswith (s p : string) {struct p} : bool :=
  match p with
  | EmptyString => true
  | String a p' =>
      match s with
      | EmptyString => false
      | String b s' => Ascii.eqb a b && startswith s' p'
      end
  end.

(** [s.split(sep)] for a one-character separator. *)
Fixpoint split (sep : ascii) (s : string) : list string :=
  match s with
  | EmptyString => [EmptyString]
  | String c s' =>
      if Ascii.eqb c sep then EmptyString :: split sep s'
      else match split sep s' with
           | [] => [String c EmptyString]
           | w :: ws => String c w :: ws
           end
  end.

(** [str(n)] for a natural number. *)
Definition str_of_N (n : N) : string := NilZero.string_of_uint (N.to_uint n).

(** [str(z)] for an integer. *)
Definition str_of_Z (z : Z) : string :=
  match z with
  | Zneg p => String "-" (str_of_N (Npos p))
  | _ => str_of_N (Z.to_N z)
  end.

(** White space that [int] strips from both ends of its argument: tab to
    carriage return, the space, and, of the code points above 127, the next
    line control and the no-break space.  The separators U+001C to U+001F
    are not stripped. *)
Definition isspace_char (c : ascii) : bool :=
  let n := code c in
  (((9 <=? n) && (n <=? 13)) || (n =? 32) || (n =? 133) || (n =? 160))%N.

Fixpoint lstrip (s : string) : string :=
  match s with
  | String c s' => if isspace_char c then lstrip s' else s
  | EmptyString => EmptyString
  end.

Fixpoint rstrip (s : string) : string :=
  match s with
  | EmptyString => EmptyString
  | String c s' =>
      match rstrip s' with
      | EmptyString => if isspace_char c then EmptyString else String c EmptyString
      | r => String c r
      end
  end.

Definition strip (s : string) : string := rstrip (lstrip s).

(** The digits of an [int] literal: groups of decimal digits separated
    by single underscores.  [prev] tells whether the previous character
    was a digit.  The result is the literal without its underscores. *)
Fixpoint int_digits (prev : bool) (s : string) : option string :=
  match s with
  | EmptyString => if prev then Some EmptyString else None
  | String c s' =>
      if is_ascii_digit c then String c <$> int_digits true s'
      else if Ascii.eqb c "_" then
             if prev then int_digits false s' else None
           else None
  end.

Definition int_magnitude (s : string) : option N :=
  match int_digits false s with
  | Some ds => N.of_uint <$> NilEmpty.uint_of_string ds
  | None => None
  end.

(** [int(s)] in base ten; [None] stands for [ValueError]. *)
Definition int (s : string) : option Z :=
  match strip s with
  | String "-" r => (fun n => (- Z.of_N n)%Z) <$> int_magnitude r
  | String "+" r => Z.of_N <$> int_magnitude r
  | r => Z.of_N <$> int_magnitude r
  end.

End PyStr.

(** ** Python values, exceptions and the effect monad *)

(** The values the thread store can hold under a key. *)
Inductive pyval :=
| PyNone
| PyBool (b : bool)
| PyInt (z : Z)
| PyStr (s : string)
| PyList (items : list pyval).

(** Python's truth value of an object. *)
Definition truthy (v : pyval) : bool :=
  match v with
  | PyNone => false
  | PyBool b => b
  | PyInt z => negb (z =? 0)%Z
  | PyStr s => negb (String.eqb s EmptyString)
  | PyList items => match items with [] => false | _ => true end
  end.

(** [v == 0]: numbers compare by value, and [False] is the number 0. *)
Definition eq_zero (v : pyval) : bool :=
  match v with
  | PyInt z => (z =? 0)%Z
  | PyBool b => negb b
  | _ => false
  end.

(** The exceptions that the module raises or lets through. *)
Inductive exn :=
| NoSuchElementException (msg : string)
| NoSuchFrameException (msg : string)
| NoSuchWindowException (msg : string)
| IndexError
| KeyError (key : string)
| ValueError
| TypeError
| JsTypeError
| JsRangeError.

(** A computation over a state [S]: it ends with a value or with an
    exception, and the state changes made before an exception stay. *)
Definition M (S A : Type) : Type := S -> (exn + A) * S.

Definition ret {S A} (a : A) : M S A := fun s => (inr a, s).

Definition raise {S A} (e : exn) : M S A := fun s => (inl e, s).

Definition bind {S A B} (m : M S A) (k : A -> M S B) : M S B :=
  fun s => match m s with
           | (inr a, s') => k a s'
           | (inl e, s') => (inl e, s')
           end.

Definition gets {S A} (f : S -> A) : M S A := fun s => (inr (f s), s).

Definition modify {S} (f : S -> S) : M S unit := fun s => (inr tt, f s).

(** Python's [x[i]] on a list, and a lookup that raises at [None]. *)
Definition or_raise {S A} (e : exn) (o : option A) : M S A :=
  match o with Some a => ret a | None => raise e end.

(** Run a computation over a part of the state. *)
Definition zoom {S T A} (get : S -> T) (set : S -> T -> S) (m : M T A) : M S A :=
  fun s => let '(r, t) := m (get s) in (r, set s t).

Declare Scope py_scope.
Delimit Scope py_scope with py.
Notation "'let*' x ':=' m 'in' k" := (bind m (fun x => k))
  (at level 10, x name, m at level 100, k at level 200) : py_scope.
Notation "m ;; k" := (bind m (fun _ => k))
  (at level 100, right associativity) : py_scope.
Local Open Scope py_scope.

(** ** The page: JavaScript values and the [window] object *)

(** The functions that can sit in [window.alert], [window.confirm] and
    [window.prompt]: the browser's own and the ones [dialogs_replace]
    installs. *)
Inductive jsfun :=
| NativeAlert | NativeConfirm | NativePrompt
| HookAlert | HookConfirm | HookPrompt.

Inductive jsval :=
| JUndefined
| JNull
| JBool (b : bool)
| JStr (s : string)
| JArr (items : list jsval)
| JFun (f : jsfun).

(** JavaScript's truthiness: objects (arrays, functions) are always true. *)
Definition js_truthy (v : jsval) : bool :=
  match v with
  | JUndefined | JNull => false
  | JBool b => b
  | JStr s => negb (String.eqb s EmptyString)
  | JArr _ | JFun _ => true
  end.

(** [v === null] *)
Definition is_null (v : jsval) : bool :=
  match v with JNull => true | _ => false end.

(** A native dialog that the browser showed. *)
Inductive dialog :=
| AlertDialog (msg : jsval)
| ConfirmDialog (msg : jsval)
| PromptDialog (msg def : jsval).

(** The page: the properties of [window], the native dialogs shown so
    far, and how the user answers native confirm and prompt dialogs. *)
Record page := {
  window : gmap string jsval;
  dialogs : list dialog;
  user_confirm : jsval -> bool;
  user_prompt : jsval -> jsval -> jsval
}.

Definition set_window (p : page) (w : gmap string jsval) : page :=
  {| window := w; dialogs := dialogs p;
     user_confirm := user_confirm p; user_prompt := user_prompt p |}.

Definition show (dlg : dialog) (p : page) : page :=
  {| window := window p; dialogs := dialogs p ++ [dlg];
     user_confirm := user_confirm p; user_prompt := user_prompt p |}.

(** [window.name]: a property that is not there reads as [undefined]. *)
Definition prop (name : string) (p : page) : jsval :=
  default JUndefined (window p !! name).

(** [window.name = v] *)
Definition assign (name : string) (v : jsval) : M page unit :=
  modify (fun p => set_window p (<[name := v]> (window p))).

(** [window.name.push(v)] *)
Definition push (name : string) (v : jsval) : M page unit :=
  let* q := gets (prop name) in
  match q with
  | JArr items => assign name (JArr (items ++ [v]))
  | _ => raise JsTypeError
  end.

(** [window.name.shift()] *)
Definition shift (name : string) : M page jsval :=
  let* q := gets (prop name) in
  match q with
  | JArr [] => ret JUndefined
  | JArr (v :: items) => assign name (JArr items);; ret v
  | _ => raise JsTypeError
  end.

(** [msg || def] *)
Definition js_or (a b : jsval) : jsval := if js_truthy a then a else b.

Definition arg (i : nat) (args : list jsval) : jsval := nth i args JUndefined.

(** Calling a function value.  The bodies of the three hooks are the
    function expressions of the script in [dialogs_replace].  [fuel] bounds
    the depth of nested calls (a hook calls the function it saved); running
    out of it stands for the engine's stack overflow. *)
Fixpoint call (fuel : nat) (f : jsval) (args : list jsval) : M page jsval :=
  match fuel with
  | O => raise JsRangeError
  | S fuel' =>
      let msg := arg 0 args in
      match f with
      | JFun NativeAlert =>
          modify (show (AlertDialog msg));; ret JUndefined
      | JFun NativeConfirm =>
          modify (show (ConfirmDialog msg));;
          let* answer := gets (fun p => user_confirm p msg) in
          ret (JBool answer)
      | JFun NativePrompt =>
          modify (show (PromptDialog msg (arg 1 args)));;
          gets (fun p => user_prompt p msg (arg 1 args))
      | JFun HookAlert =>
          let* next := gets (prop "__webdriverNextAlert") in
          (if is_null next
           then let* original := gets (prop "__webdriverOriginalAlert") in
                call fuel' original [msg];; ret tt
           else ret tt);;
          assign "__webdriverNextAlert" JNull;;
          push "__webdriverAlerts" msg;;
          ret JUndefined
      | JFun HookConfirm =>
          push "__webdriverConfirms" msg;;
          let* res := gets (prop "__webdriverNextConfirm") in
          if is_null res
          then let* prev := gets (prop "__webdriverPrevConfirm") in
               call fuel' prev [msg]
          else assign "__webdriverNextConfirm" JNull;; ret res
      | JFun HookPrompt =>
          push "__webdriverPrompts" (js_or msg (arg 1 args));;
          let* res := gets (prop "__webdriverNextPrompt") in
          assign "__webdriverNextPrompt" (JBool true);;
          ret res
      | _ => raise JsTypeError
      end
  end.

(** The page calls [window.alert(msg)] and [window.confirm(msg)]. *)
Definition window_alert (fuel : nat) (msg : jsval) : M page jsval :=
  let* f := gets (prop "alert") in call fuel f [msg].

Definition window_confirm (fuel : nat) (msg : jsval) : M page jsval :=
  let* f := gets (prop "confirm") in call fuel f [msg].

Definition window_prompt (fuel : nat) (msg def : jsval) : M page jsval :=
  let* f := gets (prop "prompt") in call fuel f [msg; def].

(** ** The driver

    The browser driver is an external collaborator.  Its model keeps what
    the module reads and changes: the implicit wait, the elements a
    selector finds, the window handles and the focused window, the frames
    of the document and the focused frame, and the page. *)

(** [selenium.webdriver.common.by.By] *)
Module By.
Definition XPATH := "xpath".
Definition CSS_SELECTOR := "css selector".
Definition NAME := "name".
Definition ID := "id".
Definition LINK_TEXT := "link text".
End By.

Inductive frame := Frame (frame_id frame_name : string) (children : list frame).

Definition subframes (f : frame) : list frame :=
  match f with Frame _ _ children => children end.

Definition has_id (s : string) (f : frame) : bool :=
  match f with Frame i _ _ => String.eqb i s end.

Definition has_name (s : string) (f : frame) : bool :=
  match f with Frame _ n _ => String.eqb n s end.

Record WebDriver := {
  implicit_wait : pyval;
  (** the elements that the selector [(by, value)] matches; the document
      stays as it is during a call, so a lookup finds the same elements
      under any wait *)
  dom : string -> string -> list nat;
  (** the lookups made so far, each with the implicit wait it ran under *)
  finds : list (string * string * pyval);
  window_handles : list string;
  current_window : string;
  (** the child frames of the top-level document *)
  document : list frame;
  (** the focused frame, as child positions from the top-level document *)
  frame_path : list nat;
  current_page : page
}.

Definition set_implicit_wait (d : WebDriver) (v : pyval) : WebDriver :=
  {| implicit_wait := v; dom := dom d; finds := finds d;
     window_handles := window_handles d; current_window := current_window d;
     document := document d; frame_path := frame_path d;
     current_page := current_page d |}.

Definition set_finds (d : WebDriver) (l : list (string * string * pyval)) : WebDriver :=
  {| implicit_wait := implicit_wait d; dom := dom d; finds := l;
     window_handles := window_handles d; current_window := current_window d;
     document := document d; frame_path := frame_path d;
     current_page := current_page d |}.

Definition set_window_handles (d : WebDriver) (l : list string) : WebDriver :=
  {| implicit_wait := implicit_wait d; dom := dom d; finds := finds d;
     window_handles := l; current_window := current_window d;
     document := document d; frame_path := frame_path d;
     current_page := current_page d |}.

Definition set_current_window (d : WebDriver) (h : string) : WebDriver :=
  {| implicit_wait := implicit_wait d; dom := dom d; finds := finds d;
     window_handles := window_handles d; current_window := h;
     document := document d; frame_path := frame_path d;
     current_page := current_page d |}.

Definition set_frame_path (d : WebDriver) (path : list nat) : WebDriver :=
  {| implicit_wait := implicit_wait d; dom := dom d; finds := finds d;
     window_handles := window_handles d; current_window := current_window d;
     document := document d; frame_path := path;
     current_page := current_page d |}.

Definition set_current_page (d : WebDriver) (p : page) : WebDriver :=
  {| implicit_wait := implicit_wait d; dom := dom d; finds := finds d;
     window_handles := window_handles d; current_window := current_window d;
     document := document d; frame_path := frame_path d;
     current_page := p |}.

(** The child frames of the frame at [path], from the frames [fs] of the
    top-level document. *)
Fixpoint frames_at (fs : list frame) (path : list nat) : list frame :=
  match path with
  | [] => fs
  | i :: path' =>
      match fs !! i with
      | Some f => frames_at (subframes f) path'
      | None => []
      end
  end.

(** The position of the first element of [l] that satisfies [p]. *)
Fixpoint index_where {A} (p : A -> bool) (l : list A) : option nat :=
  match l with
  | [] => None
  | x :: l' => if p x then Some O else S <$> index_where p l'
  end.

Module Driver.

Definition implicitly_wait (time_to_wait : pyval) : M WebDriver unit :=
  modify (fun d => set_implicit_wait d time_to_wait).

Definition find_elements (by_ value : string) : M WebDriver (list nat) :=
  modify (fun d => set_finds d (finds d ++ [(by_, value, implicit_wait d)]));;
  gets (fun d => dom d by_ value).

(** [driver.switch_to.window(h)]: the focus moves when [h] is one of
    the window handles. *)
Definition switch_to_window (h : string) : M WebDriver unit :=
  let* handles := gets window_handles in
  if bool_decide (h ∈ handles)
  then modify (fun d => set_current_window d h)
  else raise (NoSuchWindowException h).

Definition switch_to_default_content : M WebDriver unit :=
  modify (fun d => set_frame_path d []).

(** [driver.switch_to.frame(i)] for an integer [i]: the child frame at
    position [i] of the focused frame. *)
Definition switch_to_frame_index (i : Z) : M WebDriver unit :=
  let* fs := gets (fun d => frames_at (document d) (frame_path d)) in
  if (0 <=? i)%Z && (i <? Z.of_nat (length fs))%Z
  then modify (fun d => set_frame_path d (frame_path d ++ [Z.to_nat i]))
  else raise (NoSuchFrameException (PyStr.str_of_Z i)).

(** [driver.switch_to.frame(s)] for a string [s]: the child frame with
    that id, or else with that name. *)
Definition switch_to_frame_named (s : string) : M WebDriver unit :=
  let* fs := gets (fun d => frames_at (document d) (frame_path d)) in
  match index_where (has_id s) fs with
  | Some i => modify (fun d => set_frame_path d (frame_path d ++ [i]))
  | None =>
      match index_where (has_name s) fs with
      | Some i => modify (fun d => set_frame_path d (frame_path d ++ [i]))
      | None => raise (NoSuchFrameException s)
      end
  end.

Definition switch_to_parent_frame : M WebDriver unit :=
  modify (fun d => set_frame_path d (removelast (frame_path d))).

(** [driver.execute_script(script)], for a script given as what it does
    to the page. *)
Definition execute_script {A} (script : M page A) : M WebDriver A :=
  zoom current_page set_current_page script.

(** [driver.close()] closes the focused window. *)
Definition close : M WebDriver unit :=
  modify (fun d => set_window_handles d
    (filter (fun h => h <> current_window d) (window_handles d))).

End Driver.

(** ** The ambient context *)

Record Ctx := {
  (** the thread store, without its [driver] entry *)
  thread_store : gmap string pyval;
  (** the thread store's [driver] entry *)
  driver : WebDriver
}.

Definition set_driver (c : Ctx) (d : WebDriver) : Ctx :=
  {| thread_store := thread_store c; driver := d |}.

(** [apiritif.get_from_thread_store(name)]: [None] for a missing name. *)
Definition get_from_thread_store (name : string) : M Ctx pyval :=
  gets (fun c => default PyNone (thread_store c !! name)).

(** [_get_driver().method(...)]: a driver call on the context's driver. *)
Definition _get_driver {A} (method : M WebDriver A) : M Ctx A :=
  zoom driver set_driver method.

Definition _get_timeout : M Ctx pyval :=
  let* timeout := get_from_thread_store "timeout" in
  if negb (truthy timeout || eq_zero timeout)
  then ret (PyInt 30)
  else ret timeout.

(** ** Locator resolution *)

Definition BYS : gmap string string :=
  list_to_map [("xpath", By.XPATH); ("css", By.CSS_SELECTOR); ("name", By.NAME);
               ("id", By.ID); ("linktext", By.LINK_TEXT)].

(** A Python dict with string keys and values, in insertion order. *)
Definition dict : Type := list (string * string).

Definition keys (d : dict) : list string := map fst d.

Fixpoint dict_get (k : string) (d : dict) : option string :=
  match d with
  | [] => None
  | (k', v) :: d' => if String.eqb k' k then Some v else dict_get k d'
  end.

(** ["Element not found: (%s, %s)" % first_locator]: the operator needs a
    pair on its right; [None] stands for its [TypeError]. *)
Definition format_not_found (first_locator : option (string * string)) : option string :=
  match first_locator with
  | Some (by_, value) => Some ("Element not found: (" +:+ by_ +:+ ", " +:+ value +:+ ")")
  | None => None
  end.

(** The [for ... else] loop of [get_locator] over the locators that are
    left, with the current value of [first_locator]. *)
Fixpoint get_locator_loop (timeout : pyval) (first_locator : option (string * string))
    (locators : list dict) : M Ctx (string * string) :=
  match locators with
  | [] =>
      _get_driver (Driver.implicitly_wait timeout);;
      let* msg := or_raise TypeError (format_not_found first_locator) in
      raise (NoSuchElementException msg)
  | locator :: rest =>
      let* locator_type := or_raise IndexError (head (keys locator)) in
      let* locator_value := or_raise (KeyError locator_type) (dict_get locator_type locator) in
      let by_of_type := or_raise (KeyError (PyStr.lower locator_type))
                                 (BYS !! PyStr.lower locator_type) in
      let* first_locator :=
        match first_locator with
        | None => let* by_ := by_of_type in ret (Some (by_, locator_value))
        | Some _ => _get_driver (Driver.implicitly_wait (PyInt 0));; ret first_locator
        end in
      let* by_ := by_of_type in
      let* elements := _get_driver (Driver.find_elements by_ locator_value) in
      if (0 <? length elements)%nat
      then _get_driver (Driver.implicitly_wait timeout);;
           ret (by_, locator_value)
      else get_locator_loop timeout first_locator rest
  end.

Definition get_locator (locators : list dict) (ignore_implicit_wait : bool)
  : M Ctx (string * string) :=
  let* timeout := _get_timeout in
  (if ignore_implicit_wait
   then _get_driver (Driver.implicitly_wait (PyInt 0))
   else ret tt);;
  get_locator_loop timeout None locators.

(** ** Dialog interception *)

(** The script of [dialogs_replace]. *)
Definition dialogs_replace_script : M page jsval :=
  let* sentinel := gets (prop "__webdriverAlerts") in
  if js_truthy sentinel then ret JUndefined
  else
    assign "__webdriverAlerts" (JArr []);;
    (let* alert := gets (prop "alert") in
     assign "__webdriverOriginalAlert" alert);;
    assign "__webdriverNextAlert" JNull;;
    assign "alert" (JFun HookAlert);;
    assign "__webdriverConfirms" (JArr []);;
    assign "__webdriverNextConfirm" JNull;;
    (let* confirm := gets (prop "confirm") in
     assign "__webdriverPrevConfirm" confirm);;
    assign "confirm" (JFun HookConfirm);;
    assign "__webdriverPrompts" (JArr []);;
    assign "__webdriverNextPrompts" (JBool true);;
    assign "prompt" (JFun HookPrompt);;
    ret JUndefined.

Definition dialogs_replace : M Ctx jsval :=
  _get_driver (Driver.execute_script dialogs_replace_script).

(** The script of [dialogs_get_next_confirm]. *)
Definition dialogs_get_next_confirm : M Ctx jsval :=
  _get_driver (Driver.execute_script
    (let* q := gets (prop "__webdriverConfirms") in
     if negb (js_truthy q) then ret JNull
     else shift "__webdriverConfirms")).

(** [t.replace(/\n/g, ' ')] *)
Fixpoint replace_newlines (t : string) : string :=
  match t with
  | EmptyString => EmptyString
  | String c t' =>
      String (if Ascii.eqb c "010" then " "%char else c) (replace_newlines t')
  end.

(** The script of [dialogs_get_next_alert]: only a string has [replace]. *)
Definition dialogs_get_next_alert : M Ctx jsval :=
  _get_driver (Driver.execute_script
    (let* q := gets (prop "__webdriverAlerts") in
     if negb (js_truthy q) then ret JNull
     else
       let* t := shift "__webdriverAlerts" in
       if js_truthy t
       then match t with
            | JStr text => ret (JStr (replace_newlines text))
            | _ => raise JsTypeError
            end
       else ret t)).

(** The script of [dialogs_get_next_prompt]. *)
Definition dialogs_get_next_prompt : M Ctx jsval :=
  _get_driver (Driver.execute_script
    (let* q := gets (prop "__webdriverPrompts") in
     if negb (js_truthy q) then ret JNull
     else shift "__webdriverPrompts")).

(** [dialogs_answer_on_next_alert(value)], with [value] already turned
    into a string by [str]. *)
Definition dialogs_answer_on_next_alert (value : string) : M Ctx unit :=
  if String.eqb (PyStr.lower value) "#ok"
  then _get_driver (Driver.execute_script (assign "__webdriverNextAlert" (JBool true)))
  else ret tt.

(** The JavaScript literal that the text [confirm] denotes in the script
    ["window.__webdriverNextConfirm = %s;" % confirm]. *)
Definition js_literal (text : string) : jsval :=
  if String.eqb text "true" then JBool true
  else if String.eqb text "false" then JBool false
  else if String.eqb text "null" then JNull
  else JUndefined.

Definition dialogs_answer_on_next_confirm (value : string) : M Ctx unit :=
  let confirm := if String.eqb (PyStr.lower value) "#ok" then "true" else "false" in
  _get_driver (Driver.execute_script
    (assign "__webdriverNextConfirm" (js_literal confirm))).

(** ** Frame navigation *)

(** [try: body except NoSuchFrameException: handler] *)
Definition except_NoSuchFrame {S A} (body handler : M S A) : M S A :=
  fun s => match body s with
           | (inl (NoSuchFrameException _), s') => handler s'
           | r => r
           end.

(** [try: body except NoSuchWindowException: handler] *)
Definition except_NoSuchWindow {S A} (body handler : M S A) : M S A :=
  fun s => match body s with
           | (inl (NoSuchWindowException _), s') => handler s'
           | r => r
           end.

(** ["%s" % name] for an optional string argument. *)
Definition percent_s (name : option string) : string :=
  match name with Some s => s | None => "None" end.

(** [l[i]] on a Python list: a negative index counts from the end. *)
Definition py_index {A} (l : list A) (i : Z) : option A :=
  if (0 <=? i)%Z then l !! Z.to_nat i
  else if (0 <=? Z.of_nat (length l) + i)%Z then l !! Z.to_nat (Z.of_nat (length l) + i)
       else None.

Module FrameManager.

Definition switch (frame_name : option string) : M Ctx unit :=
  except_NoSuchFrame
    (match frame_name with
     | None => _get_driver Driver.switch_to_default_content
     | Some name =>
         if String.eqb name EmptyString || String.eqb name "relative=top"
         then _get_driver Driver.switch_to_default_content
         else if PyStr.startswith name "index="
         then
           let* part := or_raise IndexError (PyStr.split "=" name !! 1%nat) in
           let* i := or_raise ValueError (PyStr.int part) in
           _get_driver (Driver.switch_to_frame_index i)
         else if String.eqb name "relative=parent"
         then _get_driver Driver.switch_to_parent_frame
         else _get_driver (Driver.switch_to_frame_named name)
     end)
    (raise (NoSuchFrameException ("Invalid Frame ID: " +:+ percent_s frame_name))).

End FrameManager.

(** ** Window navigation *)

(** An instance of [WindowManager] together with the ambient context its
    methods run in. *)
Record WindowManager := {
  windows : gmap string string;
  ambient : Ctx
}.

Definition set_ambient (self : WindowManager) (c : Ctx) : WindowManager :=
  {| windows := windows self; ambient := c |}.

Definition set_windows (self : WindowManager) (w : gmap string string) : WindowManager :=
  {| windows := w; ambient := ambient self |}.

(** [WindowManager()] *)
Definition new_WindowManager (c : Ctx) : WindowManager :=
  {| windows := ∅; ambient := c |}.

(** A driver call made from a method of the instance. *)
Definition on_driver {A} (method : M WebDriver A) : M WindowManager A :=
  zoom ambient set_ambient (_get_driver method).

Module WindowManager.

Definition _switch_by_idx (win_index : Z) : M WindowManager unit :=
  let* wnd_handlers := on_driver (gets window_handles) in
  if (Z.of_nat (length wnd_handlers) <=? win_index)%Z && (win_index >=? 0)%Z
  then
    let* h := or_raise IndexError (py_index wnd_handlers win_index) in
    on_driver (Driver.switch_to_window h)
  else raise (NoSuchWindowException ("Invalid Window ID: " +:+ PyStr.str_of_Z win_index)).

Definition _switch_by_win_ser (window_name : string) : M WindowManager unit :=
  if String.eqb window_name "win_ser_local"
  then
    let* wnd_handlers := on_driver (gets window_handles) in
    if (0 <? length wnd_handlers)%nat
    then
      let* h := or_raise IndexError (py_index wnd_handlers 0) in
      on_driver (Driver.switch_to_window h)
    else raise (NoSuchWindowException ("Invalid Window ID: " +:+ window_name))
  else
    let* known := gets (fun self => windows self !! window_name) in
    (match known with
     | None =>
         let* wnd_handlers := on_driver (gets window_handles) in
         let* h := or_raise IndexError (py_index wnd_handlers (-1)) in
         modify (fun self => set_windows self (<[window_name := h]> (windows self)))
     | Some _ => ret tt
     end);;
    let* h := gets (fun self => windows self !! window_name) in
    let* h := or_raise (KeyError window_name) h in
    on_driver (Driver.switch_to_window h).

Definition switch (window_name : option string) : M WindowManager unit :=
  except_NoSuchWindow
    (match window_name with
     | Some (String _ _ as name) =>
         if PyStr.isdigit name
         then
           let* i := or_raise ValueError (PyStr.int name) in
           _switch_by_idx i
         else if PyStr.startswith name "win_ser_"
         then _switch_by_win_ser name
         else on_driver (Driver.switch_to_window name)
     | _ =>
         let* wnd_handlers := on_driver (gets window_handles) in
         let* h := or_raise IndexError (py_index wnd_handlers (-1)) in
         on_driver (Driver.switch_to_window h)
     end)
    (raise (NoSuchWindowException ("Invalid Window ID: " +:+ percent_s window_name))).

Definition close (window_name : option string) : M WindowManager unit :=
  (match window_name with
   | Some (String _ _) => switch window_name
   | _ => ret tt
   end);;
  on_driver Driver.close.

End WindowManager.

(** * Vocabulary of the properties *)

(** The spec's reading of the store: it holds no timeout when the entry
    is missing, [None] or empty. *)
Definition holds_timeout (v : pyval) : bool :=
  match v with
  | PyNone | PyList [] | PyStr EmptyString => false
  | _ => true
  end.

Definition ambient_timeout (c : Ctx) : pyval :=
  let v := default PyNone (thread_store c !! "timeout") in
  if holds_timeout v then v else PyInt 30.

(** The selector that a candidate stands for: its first key, lowered and
    looked up in [BYS], with the key's value. *)
Definition resolve (locator : dict) : option (string * string) :=
  match locator with
  | [] => None
  | (locator_type, locator_value) :: _ =>
      (fun by_ => (by_, locator_value)) <$> BYS !! PyStr.lower locator_type
  end.

(** A candidate matches when the driver finds an element for it. *)
Definition matches (d : WebDriver) (t : string * string) : Prop :=
  dom d t.1 t.2 <> [].

(** The lookups of one call: the first selector under the wait [w0], the
    later ones under a wait of zero. *)
Definition lookups (w0 : pyval) (ts : list (string * string)) : list (string * string * pyval) :=
  match ts with
  | [] => []
  | t :: ts' => (t.1, t.2, w0) :: map (fun t => (t.1, t.2, PyInt 0)) ts'
  end.

(** The driver after a call that looked up [ts] and set the wait to [w]. *)
Definition looked_up (c : Ctx) (w w0 : pyval) (ts : list (string * string)) : Ctx :=
  set_driver c (set_finds (set_implicit_wait (driver c) w)
                          (finds (driver c) ++ lookups w0 ts)).

(** A later candidate that does not match: the wait is zero and the
    lookup is logged. *)
Definition miss (d : WebDriver) (t : string * string) : WebDriver :=
  set_finds (set_implicit_wait d (PyInt 0)) (finds d ++ [(t.1, t.2, PyInt 0)]).

(** The wait under which the first candidate is looked up. *)
Definition first_wait (ignore_implicit_wait : bool) (c : Ctx) : pyval :=
  if ignore_implicit_wait then PyInt 0 else implicit_wait (driver c).

Definition page_of (c : Ctx) : page := current_page (driver c).

(** The context after the page's [window.name] was set to [v]. *)
Definition with_prop (c : Ctx) (name : string) (v : jsval) : Ctx :=
  set_driver c (set_current_page (driver c)
    (set_window (page_of c) (<[name := v]> (window (page_of c))))).

(** What [dialogs_replace] leaves in [window] when it installs. *)
Definition installed (w : gmap string jsval) : gmap string jsval :=
  <["prompt" := JFun HookPrompt]>
  (<["__webdriverNextPrompts" := JBool true]>
  (<["__webdriverPrompts" := JArr []]>
  (<["confirm" := JFun HookConfirm]>
  (<["__webdriverPrevConfirm" := default JUndefined (w !! "confirm")]>
  (<["__webdriverNextConfirm" := JNull]>
  (<["__webdriverConfirms" := JArr []]>
  (<["alert" := JFun HookAlert]>
  (<["__webdriverNextAlert" := JNull]>
  (<["__webdriverOriginalAlert" := default JUndefined (w !! "alert")]>
  (<["__webdriverAlerts" := JArr []]> w)))))))))).

(** The overrides of [dialogs_replace] are in place for alerts: the hook
    sits in [window.alert], the capture queue holds [q], and the saved
    function is the browser's own alert. *)
Definition alert_hooked (p : page) (q : list jsval) : Prop :=
  prop "alert" p = JFun HookAlert
  /\ prop "__webdriverAlerts" p = JArr q
  /\ prop "__webdriverOriginalAlert" p = JFun NativeAlert.

(** The context with the focus on the frame at [path]. *)
Definition focused (c : Ctx) (path : list nat) : Ctx :=
  set_driver c (set_frame_path (driver c) path).

(** The child frames of the focused frame. *)
Definition child_frames (c : Ctx) : list frame :=
  frames_at (document (driver c)) (frame_path (driver c)).

(** What [FrameManager.switch] makes of the driver's answer to a frame
    name: a no-such-frame failure is raised again under the name asked for. *)
Definition renamed_frame_failure (name : string) (c : Ctx)
    (answer : (exn + unit) * WebDriver) : (exn + unit) * Ctx :=
  match answer with
  | (inl (NoSuchFrameException _), d) =>
      (inl (NoSuchFrameException ("Invalid Frame ID: " +:+ name)), set_driver c d)
  | (r, d) => (r, set_driver c d)
  end.

(** The instance with the driver's focus on the window [h]. *)
Definition refocused (self : WindowManager) (h : string) : WindowManager :=
  set_ambient self
    (set_driver (ambient self) (set_current_window (driver (ambient self)) h)).

Definition handles_of (self : WindowManager) : list string :=
  window_handles (driver (ambient self)).

(** A method keeps the alias bindings: whatever is bound before the call
    is bound to the same handle after it. *)
Definition keeps_bindings {A} (m : M WindowManager A) : Prop :=
  forall self k v, windows self !! k = Some v -> windows (snd (m self)) !! k = Some v.

(** ** A sample session *)

Module Sample.

(** A page with the browser's own dialog functions. *)
Definition fresh_page : page :=
  {| window := <["alert" := JFun NativeAlert]>
               (<["confirm" := JFun NativeConfirm]>
               (<["prompt" := JFun NativePrompt]> ∅));
     dialogs := [];
     user_confirm := fun _ => true;
     user_prompt := fun _ def => def |}.

(** Two windows, two frames at the top (the first with a child), and a
    document in which only the value ["hit"] finds an element. *)
Definition browser : WebDriver :=
  {| implicit_wait := PyInt 7;
     dom := fun _ value => if String.eqb value "hit" then [1%nat] else [];
     finds := [];
     window_handles := ["w0"; "w1"];
     current_window := "w0";
     document := [Frame "a" "left" [Frame "c" "inner" []]; Frame "b" "right" []];
     frame_path := [];
     current_page := fresh_page |}.

Definition context : Ctx := {| thread_store := ∅; driver := browser |}.

Definition manager : WindowManager := new_WindowManager context.

(** The manager after its first switch to ["win_ser_abc"] and after a
    third window was opened. *)
Definition later_manager : WindowManager :=
  {| windows := <["win_ser_abc" := "w1"]> ∅;
     ambient := set_driver context
       (set_window_handles (set_current_window browser "w1") ["w0"; "w1"; "w2"]) |}.

End Sample.

(** The sample context after [dialogs_replace]. *)
Definition hooked_context : Ctx := snd (dialogs_replace Sample.context).

(** ** Vocabulary of the further properties *)

(** What a call of [get_locator] can change: the implicit wait, and the
    log of lookups, which only grows.  Everything else of [c'] is as in [c]. *)
Definition only_waited_and_looked_up (c c' : Ctx) : Prop :=
  thread_store c' = thread_store c
  /\ dom (driver c') = dom (driver c)
  /\ window_handles (driver c') = window_handles (driver c)
  /\ current_window (driver c') = current_window (driver c)
  /\ document (driver c') = document (driver c)
  /\ frame_path (driver c') = frame_path (driver c)
  /\ current_page (driver c') = current_page (driver c)
  /\ exists more, finds (driver c') = (finds (driver c) ++ more)%list.

(** The context with the implicit wait set to [w]. *)
Definition waiting (c : Ctx) (w : pyval) : Ctx :=
  set_driver c (set_implicit_wait (driver c) w).

(** The context after a lookup of [(by_, value)] was logged. *)
Definition logged (c : Ctx) (by_ value : string) : Ctx :=
  set_driver c (set_finds (driver c)
    (finds (driver c) ++ [(by_, value, implicit_wait (driver c))])).


Definition focus_of (self : WindowManager) : string :=
  current_window (driver (ambient self)).

(** A driver call that moves the frame focus or fails without a change. *)
Definition frame_move (m : M WebDriver unit) : Prop :=
  forall d, (exists path, m d = (inr tt, set_frame_path d path))
            \/ (exists e, m d = (inl e, d)).

(** The page with [window.name] set to [v]. *)
Definition page_with (p : page) (name : string) (v : jsval) : page :=
  set_window p (<[name := v]> (window p)).

(** The overrides of [dialogs_replace] are in place for confirms, with
    the queue [q]. *)
Definition confirm_hooked (p : page) (q : list jsval) : Prop :=
  prop "confirm" p = JFun HookConfirm
  /\ prop "__webdriverConfirms" p = JArr q
  /\ prop "__webdriverPrevConfirm" p = JFun NativeConfirm.

(** Something that happens in the page, seen from the ambient context. *)
Definition in_page {A} (event : M page A) : M Ctx A :=
  _get_driver (Driver.execute_script event).

(** One call after the other over the elements of a list, with the list
    of the results. *)
Fixpoint each {S A B} (f : A -> M S B) (l : list A) : M S (list B) :=
  match l with
  | [] => ret []
  | x :: l' => let* y := f x in let* ys := each f l' in ret (y :: ys)
  end.

(** No character of the string is a line feed. *)
Definition no_newline (t : string) : bool :=
  PyStr.all_chars (fun c => negb (Ascii.eqb c "010")) t.

(** The page after the hooked confirm was called with each of [ms], with
    nothing pending, on the queue [q]. *)
Definition all_confirmed (p : page) (q ms : list jsval) : page :=
  {| window := <["__webdriverConfirms" := JArr (q ++ ms)]> (window p);
     dialogs := dialogs p ++ map ConfirmDialog ms;
     user_confirm := user_confirm p;
     user_prompt := user_prompt p |}.

(** ** Flow markers

    The handler registry, the iteration counter and the record of the
    scripts that went to the driver with their parameter object belong to
    the test harness; the model keeps them beside the ambient context. *)

(** The callbacks a handler list can hold. *)
Inductive callback :=
| SendStartFlowMarker
| SendExitFlowMarker
| OtherCallback (name : string).

Record Harness := {
  session : Ctx;
  (** what [get_transaction_handlers] returns: the registry itself, not a
      copy, so an [append] to one of its lists is seen at once *)
  transaction_handlers : gmap string (list callback);
  (** what [get_iteration] returns *)
  iteration : pyval;
  (** the scripts sent with a parameter object, oldest first *)
  marker_scripts : list (string * gmap string pyval)
}.

Definition set_session (h : Harness) (c : Ctx) : Harness :=
  {| session := c; transaction_handlers := transaction_handlers h;
     iteration := iteration h; marker_scripts := marker_scripts h |}.

Definition set_transaction_handlers (handlers : gmap string (list callback))
  : M Harness unit :=
  modify (fun h =>
    {| session := session h; transaction_handlers := handlers;
       iteration := iteration h; marker_scripts := marker_scripts h |}).

Definition get_transaction_handlers : M Harness (gmap string (list callback)) :=
  gets transaction_handlers.

(** [handlers[key].append(f)], on the registry in place. *)
Definition append_handler (key : string) (f : callback) : M Harness unit :=
  let* handlers := get_transaction_handlers in
  let* fs := or_raise (KeyError key) (handlers !! key) in
  set_transaction_handlers (<[key := (fs ++ [f])%list]> handlers).

Definition add_flow_markers : M Harness unit :=
  append_handler "enter" SendStartFlowMarker;;
  append_handler "exit" SendExitFlowMarker;;
  let* handlers := get_transaction_handlers in
  set_transaction_handlers handlers.

(** [driver.execute_script(script, params)] for a script that is one
    JavaScript comment: the page does nothing, the call is recorded. *)
Definition execute_comment (script : string) (params : gmap string pyval)
  : M Harness unit :=
  zoom session set_session (_get_driver (Driver.execute_script (ret tt)));;
  modify (fun h =>
    {| session := session h; transaction_handlers := transaction_handlers h;
       iteration := iteration h;
       marker_scripts := (marker_scripts h ++ [(script, params)])%list |}).

Definition _send_marker (stage : string) (params : gmap string pyval)
  : M Harness unit :=
  execute_comment ("/* FLOW_MARKER test-case-" +:+ stage +:+ " */") params.

(** [a or b] *)
Definition py_or (a b : pyval) : pyval := if truthy a then a else b.

(** [get_from_thread_store(name)] from a callback of the harness. *)
Definition from_store (name : string) : M Harness pyval :=
  zoom session set_session (get_from_thread_store name).

Definition _send_start_flow_marker : M Harness unit :=
  let stage := "start" in
  let* test_case := from_store "test_case" in
  let* test_suite := from_store "test_suite" in
  let* scenario_name := from_store "scenario_name" in
  let* data_sources := from_store "data_sources" in
  let params : gmap string pyval :=
    <["testSuiteName" := py_or scenario_name test_suite]>
    (<["testCaseName" := test_case]> ∅) in
  let* params :=
    if truthy data_sources
    then let* i := gets iteration in ret (<["testDataIterationId" := i]> params)
    else ret params in
  _send_marker stage params.

Definition _send_exit_flow_marker : M Harness unit :=
  let stage := "stop" in
  let* status := from_store "status" in
  let* message := from_store "message" in
  let params : gmap string pyval :=
    <["message" := message]> (<["status" := status]> ∅) in
  _send_marker stage params.

(** What the store holds under [name], [None] when it holds nothing. *)
Definition stored (h : Harness) (name : string) : pyval :=
  default PyNone (thread_store (session h) !! name).

(** The harness after one more script with its parameters was sent. *)
Definition sent (h : Harness) (script : string) (params : gmap string pyval) : Harness :=
  {| session := session h; transaction_handlers := transaction_handlers h;
     iteration := iteration h;
     marker_scripts := (marker_scripts h ++ [(script, params)])%list |}.

(** The harness with the registry [handlers]. *)
Definition registered (h : Harness) (handlers : gmap string (list callback)) : Harness :=
  {| session := session h; transaction_handlers := handlers;
     iteration := iteration h; marker_scripts := marker_scripts h |}.

(** ** More of the sample session *)

Module Sample2.

(** A manager whose alias points at a window that was closed since. *)
Definition stale_manager : WindowManager :=
  {| windows := <["win_ser_abc" := "gone"]> ∅; ambient := Sample.context |}.

(** A manager on a driver without any window. *)
Definition windowless_manager : WindowManager :=
  new_WindowManager
    (set_driver Sample.context (set_window_handles Sample.browser [])).

Definition two_lines : string :=
  String "a" (String "010" (String "b" EmptyString)).

(** The hooked sample context with one alert of two lines in its queue. *)
Definition alerted_context : Ctx :=
  with_prop hooked_context "__webdriverAlerts" (JArr [JStr two_lines]).

(** A harness with a registry as the test runner sets it up, and one
    whose registry has no lists. *)
Definition harness : Harness :=
  {| session := Sample.context;
     transaction_handlers :=
       <["enter" := [OtherCallback "log"]]> (<["exit" := []]> ∅);
     iteration := PyInt 3;
     marker_scripts := [] |}.

Definition bare_harness : Harness :=
  {| session := Sample.context; transaction_handlers := ∅;
     iteration := PyInt 0; marker_scripts := [] |}.

End Sample2.

(** The call of [get_locator] came to the end of its loop: it returned,
    or it raised from the branch that is taken when nothing matched (the
    element-not-found error, or the error of formatting its message). *)
Definition ran_to_the_end (r : exn + string * string) : Prop :=
  match r with
  | inr _ | inl (NoSuchElementException _) | inl TypeError => True
  | _ => False
  end.

(** * Properties *)

(** Each property is stated on what a call returns together with the state
    it leaves, so that a raised exception and the state at the raise are
    part of the statement. *)

(** Unfolding the monad so that a computation applied to a state reduces. *)
Ltac run :=
  unfold _get_driver, on_driver, Driver.execute_script, Driver.implicitly_wait,
    Driver.find_elements, get_from_thread_store, assign, push, zoom, or_raise,
    bind, ret, raise, gets, modify in *;
  cbn [fst snd driver set_driver current_page set_current_page window set_window
       thread_store implicit_wait set_implicit_wait finds set_finds dom
       window_handles current_window document frame_path dialogs
       user_confirm user_prompt ambient set_ambient windows set_windows] in *.

(** ** Python strings *)

Example lower_ok : PyStr.lower "#Ok" = "#ok".
Proof. reflexivity. Qed.

Example isdigit_examples :
  PyStr.isdigit "12" = true /\ PyStr.isdigit EmptyString = false
  /\ PyStr.isdigit "win_ser_1" = false /\ PyStr.isdigit "-1" = false.
Proof. repeat split. Qed.

Example split_examples :
  PyStr.split "=" "index=1" = ["index"; "1"]
  /\ PyStr.split "=" "index=" = ["index"; EmptyString]
  /\ PyStr.split "=" "index=1=2" = ["index"; "1"; "2"].
Proof. repeat split. Qed.

Example int_examples :
  PyStr.int "007" = Some 7%Z /\ PyStr.int " -1_0 " = Some (-10)%Z
  /\ PyStr.int EmptyString = None /\ PyStr.int "1__0" = None /\ PyStr.int "abc" = None
  /\ PyStr.int "_1" = None /\ PyStr.int "1_" = None.
Proof. repeat split. Qed.

(** ** The ambient timeout *)

Lemma _get_timeout_eq c : _get_timeout c = (inr (ambient_timeout c), c).
Proof.
  unfold _get_timeout, ambient_timeout. run.
  destruct (default PyNone (thread_store c !! "timeout")) as [ | [] | z | s | items ];
    cbn; try reflexivity.
  - destruct z; reflexivity.
  - destruct s; reflexivity.
  - destruct items; reflexivity.
Qed.

(** ** Locator resolution *)

Lemma resolve_inv locator t :
  resolve locator = Some t ->
  exists k rest, locator = (k, t.2) :: rest /\ BYS !! PyStr.lower k = Some t.1.
Proof.
  destruct locator as [ | [k v] rest]; [discriminate |].
  unfold resolve. destruct (BYS !! PyStr.lower k) as [by_ | ] eqn:E; [ | discriminate].
  intros [= <-]. exists k, rest. split; [reflexivity | exact E].
Qed.

Section Loop.

Variable timeout : pyval.

Lemma loop_first_miss locator t rest c :
  resolve locator = Some t -> ~ matches (driver c) t ->
  get_locator_loop timeout None (locator :: rest) c
  = get_locator_loop timeout (Some t) rest
      (set_driver c (set_finds (driver c)
         (finds (driver c) ++ [(t.1, t.2, implicit_wait (driver c))]))).
Proof.
  intros Hr Hm. apply resolve_inv in Hr as (k & tl & -> & Hby).
  destruct t as [by_ v]. cbn [fst snd] in *.
  assert (dom (driver c) by_ v = []) as Hd.
  { unfold matches in Hm. cbn in Hm. destruct (dom (driver c) by_ v); [reflexivity |].
    exfalso. now apply Hm. }
  cbn [get_locator_loop]. run. cbn [keys map head fst dict_get].
  rewrite String.eqb_refl, Hby. cbn. rewrite Hd. reflexivity.
Qed.

Lemma loop_first_hit locator t rest c :
  resolve locator = Some t -> matches (driver c) t ->
  get_locator_loop timeout None (locator :: rest) c
  = (inr t, looked_up c timeout (implicit_wait (driver c)) [t]).
Proof.
  intros Hr Hm. apply resolve_inv in Hr as (k & tl & -> & Hby).
  destruct t as [by_ v]. cbn [fst snd] in *.
  cbn [get_locator_loop]. run. cbn [keys map head fst dict_get].
  rewrite String.eqb_refl, Hby. cbn.
  unfold matches in Hm. cbn in Hm.
  destruct (dom (driver c) by_ v); [now contradiction Hm | reflexivity].
Qed.

Lemma loop_later_miss f locator t rest c :
  resolve locator = Some t -> ~ matches (driver c) t ->
  get_locator_loop timeout (Some f) (locator :: rest) c
  = get_locator_loop timeout (Some f) rest (set_driver c (miss (driver c) t)).
Proof.
  intros Hr Hm. apply resolve_inv in Hr as (k & tl & -> & Hby).
  destruct t as [by_ v]. cbn [fst snd] in *.
  assert (dom (driver c) by_ v = []) as Hd.
  { unfold matches in Hm. cbn in Hm. destruct (dom (driver c) by_ v); [reflexivity |].
    exfalso. now apply Hm. }
  cbn [get_locator_loop]. run. cbn [keys map head fst dict_get].
  rewrite String.eqb_refl, Hby. cbn. rewrite Hd. reflexivity.
Qed.

Lemma loop_later_hit f locator t rest c :
  resolve locator = Some t -> matches (driver c) t ->
  get_locator_loop timeout (Some f) (locator :: rest) c
  = (inr t, set_driver c (set_implicit_wait (miss (driver c) t) timeout)).
Proof.
  intros Hr Hm. apply resolve_inv in Hr as (k & tl & -> & Hby).
  destruct t as [by_ v]. cbn [fst snd] in *.
  cbn [get_locator_loop]. run. cbn [keys map head fst dict_get].
  rewrite String.eqb_refl, Hby. cbn.
  unfold matches in Hm. cbn in Hm.
  destruct (dom (driver c) by_ v); [now contradiction Hm | reflexivity].
Qed.

Lemma loop_end f c :
  get_locator_loop timeout (Some f) [] c
  = (inl (NoSuchElementException
            ("Element not found: (" +:+ f.1 +:+ ", " +:+ f.2 +:+ ")")),
     set_driver c (set_implicit_wait (driver c) timeout)).
Proof. destruct f. reflexivity. Qed.

(** The candidates [pre] that resolve and do not match are passed over,
    each leaving a lookup under a wait of zero. *)
Lemma loop_later_misses f pre : forall tpre rest c,
  Forall2 (fun l t => resolve l = Some t) pre tpre ->
  Forall (fun t => ~ matches (driver c) t) tpre ->
  get_locator_loop timeout (Some f) (pre ++ rest) c
  = get_locator_loop timeout (Some f) rest
      (set_driver c (fold_left miss tpre (driver c))).
Proof.
  induction pre as [ | l pre IH]; intros tpre rest c H2 Hno.
  - inversion H2; subst. destruct c. reflexivity.
  - inversion H2 as [ | ? t ? tpre' Hl Hpre]; subst.
    inversion Hno as [ | ? ? Ht Hrest]; subst.
    cbn [app]. rewrite (loop_later_miss _ _ t) by assumption.
    rewrite (IH tpre' rest) by assumption. reflexivity.
Qed.

End Loop.

Lemma misses_then_wait ts : forall d w,
  set_implicit_wait (fold_left miss ts d) w
  = set_finds (set_implicit_wait d w)
      (finds d ++ map (fun t => (t.1, t.2, PyInt 0)) ts).
Proof.
  induction ts as [ | a ts IH]; intros d w.
  - cbn. rewrite app_nil_r. reflexivity.
  - cbn [fold_left map]. rewrite IH. unfold miss, set_finds, set_implicit_wait.
    cbn. now rewrite <- app_assoc.
Qed.

Lemma misses_then_hit ts d t w :
  set_implicit_wait (miss (fold_left miss ts d) t) w
  = set_finds (set_implicit_wait d w)
      (finds d ++ map (fun t => (t.1, t.2, PyInt 0)) (ts ++ [t])).
Proof.
  change (miss (fold_left miss ts d) t) with (fold_left miss [t] (fold_left miss ts d)).
  rewrite <- fold_left_app. apply misses_then_wait.
Qed.

Lemma dom_after_misses ts : forall d, dom (fold_left miss ts d) = dom d.
Proof.
  induction ts as [ | a ts IH]; intros d; [reflexivity |].
  cbn [fold_left]. now rewrite IH.
Qed.

(** The loop from its start: the earliest matching candidate is returned
    and the wait is set to [timeout]. *)
Lemma loop_first_match timeout pre cand post tpre t c :
  Forall2 (fun l t => resolve l = Some t) pre tpre ->
  Forall (fun t => ~ matches (driver c) t) tpre ->
  resolve cand = Some t -> matches (driver c) t ->
  get_locator_loop timeout None (pre ++ cand :: post) c
  = (inr t, looked_up c timeout (implicit_wait (driver c)) (tpre ++ [t])).
Proof.
  intros H2 Hno Hr Hm.
  destruct H2 as [ | l t1 pre' tpre' Hl Hpre].
  - now apply loop_first_hit.
  - inversion Hno as [ | ? ? Ht1 Hrest]; subst.
    cbn [app]. rewrite (loop_first_miss _ _ t1) by assumption.
    rewrite (loop_later_misses _ _ _ tpre') by assumption.
    rewrite (loop_later_hit _ _ _ t);
      [ | assumption | unfold matches; cbn; now rewrite dom_after_misses ].
    unfold looked_up. cbn [driver set_driver]. rewrite misses_then_hit.
    unfold lookups, set_finds, set_implicit_wait. cbn.
    now rewrite <- app_assoc.
Qed.

(** The loop from its start when nothing matches. *)
Lemma loop_no_match timeout l1 rest t1 ts c :
  Forall2 (fun l t => resolve l = Some t) (l1 :: rest) (t1 :: ts) ->
  Forall (fun t => ~ matches (driver c) t) (t1 :: ts) ->
  get_locator_loop timeout None (l1 :: rest) c
  = (inl (NoSuchElementException
            ("Element not found: (" +:+ t1.1 +:+ ", " +:+ t1.2 +:+ ")")),
     looked_up c timeout (implicit_wait (driver c)) (t1 :: ts)).
Proof.
  intros H2 Hno.
  inversion H2 as [ | ? ? ? ? Hl Hrest]; subst.
  inversion Hno as [ | ? ? Ht1 Hts]; subst.
  rewrite (loop_first_miss _ _ t1) by assumption.
  rewrite <- (app_nil_r rest).
  rewrite (loop_later_misses _ _ _ ts) by assumption.
  rewrite loop_end. unfold looked_up. cbn [driver set_driver].
  rewrite misses_then_wait.
  unfold lookups, set_finds, set_implicit_wait. cbn.
  now rewrite <- app_assoc.
Qed.

(** [get_locator] is its loop, run after the optional zeroing of the wait. *)
Lemma get_locator_eq locators ignore c :
  get_locator locators ignore c
  = get_locator_loop (ambient_timeout c) None locators
      (if ignore then set_driver c (set_implicit_wait (driver c) (PyInt 0)) else c).
Proof.
  unfold get_locator, bind at 1. rewrite _get_timeout_eq.
  destruct ignore; reflexivity.
Qed.

(** C2: when the candidates [pre] resolve and match nothing and the next
    candidate matches, [get_locator] returns that candidate's (strategy,
    value) pair; the candidates are looked up in order, all but the first
    under a wait of zero; afterwards the wait is the ambient timeout. *)
Theorem get_locator_returns_first_match
    (pre : list dict) (cand : dict) (post : list dict)
    (tpre : list (string * string)) (t : string * string)
    (ignore_implicit_wait : bool) (c : Ctx) :
  Forall2 (fun l t => resolve l = Some t) pre tpre ->
  Forall (fun t => ~ matches (driver c) t) tpre ->
  resolve cand = Some t -> matches (driver c) t ->
  get_locator (pre ++ cand :: post) ignore_implicit_wait c
  = (inr t, looked_up c (ambient_timeout c) (first_wait ignore_implicit_wait c)
              (tpre ++ [t])).
Proof.
  intros H2 Hno Hr Hm. rewrite get_locator_eq.
  destruct ignore_implicit_wait.
  - rewrite (loop_first_match _ pre cand post tpre t) by assumption. reflexivity.
  - now rewrite (loop_first_match _ pre cand post tpre t).
Qed.

(** C3: when every candidate of a non-empty list resolves and none
    matches, [get_locator] raises the element-not-found error whose message
    carries the first candidate's strategy and value, and the wait is
    already the ambient timeout when the error leaves the function. *)
Theorem get_locator_no_match_raises
    (l1 : dict) (rest : list dict) (t1 : string * string)
    (ts : list (string * string)) (ignore_implicit_wait : bool) (c : Ctx) :
  Forall2 (fun l t => resolve l = Some t) (l1 :: rest) (t1 :: ts) ->
  Forall (fun t => ~ matches (driver c) t) (t1 :: ts) ->
  get_locator (l1 :: rest) ignore_implicit_wait c
  = (inl (NoSuchElementException
            ("Element not found: (" +:+ t1.1 +:+ ", " +:+ t1.2 +:+ ")")),
     looked_up c (ambient_timeout c) (first_wait ignore_implicit_wait c) (t1 :: ts)).
Proof.
  intros H2 Hno. rewrite get_locator_eq.
  destruct ignore_implicit_wait.
  - rewrite (loop_no_match _ l1 rest t1 ts) by assumption. reflexivity.
  - now rewrite (loop_no_match _ l1 rest t1 ts).
Qed.

(** C9: on the empty list [get_locator] reaches the no-match branch with
    no first candidate; formatting the message fails, so the call ends
    with a [TypeError] and not with the element-not-found error. *)
Theorem get_locator_empty_list_type_error (ignore_implicit_wait : bool) (c : Ctx) :
  format_not_found None = None
  /\ get_locator [] ignore_implicit_wait c
     = (inl TypeError, set_driver c (set_implicit_wait (driver c) (ambient_timeout c)))
  /\ forall msg, fst (get_locator [] ignore_implicit_wait c)
                 <> inl (NoSuchElementException msg).
Proof.
  split; [reflexivity |].
  rewrite get_locator_eq. destruct ignore_implicit_wait; (split; [reflexivity |]);
    intros msg; cbn; discriminate.
Qed.

(** ** Dialog interception *)

Lemma prop_assigned name v p :
  prop name (set_window p (<[name := v]> (window p))) = v.
Proof. unfold prop. cbn. now rewrite lookup_insert_eq. Qed.

Lemma prop_assigned_ne name name' v p :
  name <> name' ->
  prop name' (set_window p (<[name := v]> (window p))) = prop name' p.
Proof. intros Hne. unfold prop. cbn. now rewrite lookup_insert_ne. Qed.

Lemma prop_with_prop name v c : prop name (page_of (with_prop c name v)) = v.
Proof. apply prop_assigned. Qed.

Lemma prop_with_prop_ne name name' v c :
  name <> name' -> prop name' (page_of (with_prop c name v)) = prop name' (page_of c).
Proof. apply prop_assigned_ne. Qed.

Lemma ctx_page_id c :
  set_driver c (set_current_page (driver c) (current_page (driver c))) = c.
Proof. destruct c as [ts d]. now destruct d. Qed.

(** C10: [dialogs_answer_on_next_confirm] sets the pending confirm answer
    to [true] exactly when its argument is ["#ok"] up to letter case, and to
    [false] for every other argument. *)
Theorem dialogs_answer_on_next_confirm_ok_or_cancel (value : string) (c : Ctx) :
  dialogs_answer_on_next_confirm value c
  = (inr tt, with_prop c "__webdriverNextConfirm"
               (JBool (String.eqb (PyStr.lower value) "#ok")))
  /\ (PyStr.lower value = "#ok" <->
      prop "__webdriverNextConfirm"
        (page_of (snd (dialogs_answer_on_next_confirm value c))) = JBool true)
  /\ (PyStr.lower value <> "#ok" <->
      prop "__webdriverNextConfirm"
        (page_of (snd (dialogs_answer_on_next_confirm value c))) = JBool false).
Proof.
  assert (dialogs_answer_on_next_confirm value c
          = (inr tt, with_prop c "__webdriverNextConfirm"
                       (JBool (String.eqb (PyStr.lower value) "#ok")))) as E.
  { unfold dialogs_answer_on_next_confirm.
    destruct (String.eqb (PyStr.lower value) "#ok"); reflexivity. }
  split; [exact E |]. rewrite E. cbn [snd]. rewrite !prop_with_prop.
  destruct (String.eqb_spec (PyStr.lower value) "#ok") as [Heq | Hne];
    split; split; intros H; try reflexivity; try assumption; try discriminate;
    contradiction.
Qed.

Lemma dialogs_replace_script_eq p :
  dialogs_replace_script p
  = (inr JUndefined,
     if js_truthy (prop "__webdriverAlerts" p) then p
     else set_window p (installed (window p))).
Proof.
  unfold dialogs_replace_script. run.
  destruct (js_truthy (prop "__webdriverAlerts" p)); [reflexivity |].
  unfold installed, prop. cbn.
  rewrite !(lookup_insert_ne (M := gmap string)) by discriminate.
  reflexivity.
Qed.

Lemma dialogs_replace_eq c :
  dialogs_replace c
  = (inr JUndefined,
     set_driver c (set_current_page (driver c)
       (if js_truthy (prop "__webdriverAlerts" (page_of c)) then page_of c
        else set_window (page_of c) (installed (window (page_of c)))))).
Proof.
  unfold dialogs_replace. run. now rewrite dialogs_replace_script_eq.
Qed.

Lemma installed_sentinel p :
  js_truthy (prop "__webdriverAlerts" (set_window p (installed (window p)))) = true.
Proof.
  unfold prop, installed. cbn.
  rewrite !(lookup_insert_ne (M := gmap string)) by discriminate.
  now rewrite lookup_insert_eq.
Qed.

(** C6: [dialogs_replace] is idempotent.  With the sentinel
    [window.__webdriverAlerts] set, a call changes nothing in the context
    (the page with its queues, pending answers and saved functions
    included); and a call right after a call changes nothing. *)
Theorem dialogs_replace_idempotent (c : Ctx) :
  (js_truthy (prop "__webdriverAlerts" (page_of c)) = true ->
   dialogs_replace c = (inr JUndefined, c))
  /\ dialogs_replace (snd (dialogs_replace c))
     = (inr JUndefined, snd (dialogs_replace c)).
Proof.
  assert (forall c', js_truthy (prop "__webdriverAlerts" (page_of c')) = true ->
                     dialogs_replace c' = (inr JUndefined, c')) as Hnoop.
  { intros c' H. rewrite dialogs_replace_eq, H. unfold page_of.
    now rewrite ctx_page_id. }
  split; [apply Hnoop |].
  apply Hnoop. rewrite dialogs_replace_eq. cbn [snd].
  unfold page_of at 1. cbn [driver set_driver current_page set_current_page].
  destruct (js_truthy (prop "__webdriverAlerts" (page_of c))) eqn:E;
    [exact E | apply installed_sentinel].
Qed.

(** [dialogs_replace] on a page without the sentinel and with the
    browser's own alert puts the overrides in place. *)
Lemma dialogs_replace_hooks_alert c :
  js_truthy (prop "__webdriverAlerts" (page_of c)) = false ->
  prop "alert" (page_of c) = JFun NativeAlert ->
  alert_hooked (page_of (snd (dialogs_replace c))) [].
Proof.
  intros Hs Ha. rewrite dialogs_replace_eq, Hs. cbn [snd].
  unfold page_of at 1. cbn [driver set_driver current_page set_current_page].
  unfold prop in Ha. unfold alert_hooked, prop, installed. cbn [window set_window].
  rewrite Ha.
  repeat split;
    repeat first [ rewrite lookup_insert_eq; reflexivity
                 | rewrite (lookup_insert_ne (M := gmap string)) by discriminate ].
Qed.

Lemma dialogs_answer_on_next_alert_eq value c :
  dialogs_answer_on_next_alert value c
  = (inr tt, if String.eqb (PyStr.lower value) "#ok"
             then with_prop c "__webdriverNextAlert" (JBool true) else c).
Proof.
  unfold dialogs_answer_on_next_alert.
  destruct (String.eqb (PyStr.lower value) "#ok"); reflexivity.
Qed.

Lemma dialogs_answer_on_next_alert_ok value c :
  PyStr.lower value = "#ok" ->
  dialogs_answer_on_next_alert value c
  = (inr tt, with_prop c "__webdriverNextAlert" (JBool true)).
Proof. intros H. rewrite dialogs_answer_on_next_alert_eq, H. reflexivity. Qed.

(** The hooked alert with a pending value that is not [null]: no dialog,
    the pending value is reset and the message is queued. *)
Lemma hook_alert_suppressed fuel msg q p :
  prop "alert" p = JFun HookAlert ->
  prop "__webdriverAlerts" p = JArr q ->
  is_null (prop "__webdriverNextAlert" p) = false ->
  window_alert (S fuel) msg p
  = (inr JUndefined,
     set_window p (<["__webdriverAlerts" := JArr (q ++ [msg])]>
                   (<["__webdriverNextAlert" := JNull]> (window p)))).
Proof.
  intros Ha Hq Hn. unfold window_alert. run. rewrite Ha.
  cbn [call arg nth]. run. rewrite Hn.
  unfold prop in *. cbn [window set_window].
  rewrite (lookup_insert_ne (M := gmap string)) by discriminate.
  destruct (window p !! "__webdriverAlerts") as [v | ]; cbn in Hq |- *;
    [subst; reflexivity | discriminate].
Qed.

(** The hooked alert with nothing pending: the saved alert shows the
    dialog, and the message is queued. *)
Lemma hook_alert_passes fuel msg q p :
  alert_hooked p q ->
  is_null (prop "__webdriverNextAlert" p) = true ->
  window_alert (S (S fuel)) msg p
  = (inr JUndefined,
     show (AlertDialog msg)
       (set_window p (<["__webdriverAlerts" := JArr (q ++ [msg])]>
                      (<["__webdriverNextAlert" := JNull]> (window p))))).
Proof.
  intros (Ha & Hq & Ho) Hn. unfold window_alert. run. rewrite Ha.
  cbn [call arg nth]. run. rewrite Hn, Ho.
  unfold prop in *. cbn [window set_window show].
  rewrite (lookup_insert_ne (M := gmap string)) by discriminate.
  destruct (window p !! "__webdriverAlerts") as [v | ]; cbn in Hq |- *;
    [subst; reflexivity | discriminate].
Qed.

(** C4, as the code has it: after [dialogs_answer_on_next_alert] with
    ["#ok"] in any letter case, and with the overrides in place, the next
    [window.alert] shows no dialog; its message is appended to the capture
    queue and the pending acknowledgment is reset to [null]; the alert after
    that one goes to the browser's own dialog and is queued too. *)
Theorem alert_after_ok_is_suppressed_and_captured
    (value : string) (msg msg2 : jsval) (q : list jsval) (fuel : nat) (c : Ctx) :
  PyStr.lower value = "#ok" ->
  alert_hooked (page_of c) q ->
  let c1 := snd (dialogs_answer_on_next_alert value c) in
  let first := window_alert (S fuel) msg (page_of c1) in
  let second := window_alert (S (S fuel)) msg2 (snd first) in
  fst first = inr JUndefined
  /\ dialogs (snd first) = dialogs (page_of c)
  /\ prop "__webdriverAlerts" (snd first) = JArr (q ++ [msg])
  /\ prop "__webdriverNextAlert" (snd first) = JNull
  /\ fst second = inr JUndefined
  /\ dialogs (snd second) = (dialogs (page_of c) ++ [AlertDialog msg2])%list
  /\ prop "__webdriverAlerts" (snd second) = JArr ((q ++ [msg]) ++ [msg2])
  /\ prop "__webdriverNextAlert" (snd second) = JNull.
Proof.
  intros Hok (Ha & Hq & Ho) c1 first second.
  assert (first = (inr JUndefined,
            set_window (page_of c1)
              (<["__webdriverAlerts" := JArr (q ++ [msg])]>
               (<["__webdriverNextAlert" := JNull]> (window (page_of c1)))))) as E1.
  { subst first c1. rewrite dialogs_answer_on_next_alert_ok by exact Hok. cbn [snd].
    apply hook_alert_suppressed.
    - rewrite prop_with_prop_ne by discriminate. exact Ha.
    - rewrite prop_with_prop_ne by discriminate. exact Hq.
    - now rewrite prop_with_prop. }
  assert (alert_hooked (snd first) (q ++ [msg])
          /\ prop "__webdriverNextAlert" (snd first) = JNull
          /\ dialogs (snd first) = dialogs (page_of c)) as (Hh & Hn & Hd).
  { rewrite E1. cbn [snd]. subst c1.
    rewrite dialogs_answer_on_next_alert_ok by exact Hok. cbn [snd].
    unfold alert_hooked, prop, with_prop, page_of in *.
    cbn [driver set_driver current_page set_current_page window set_window dialogs].
    repeat split;
      repeat first [ rewrite lookup_insert_eq; reflexivity
                   | rewrite (lookup_insert_ne (M := gmap string)) by discriminate ];
      assumption. }
  assert (second = (inr JUndefined,
            show (AlertDialog msg2)
              (set_window (snd first)
                 (<["__webdriverAlerts" := JArr ((q ++ [msg]) ++ [msg2])]>
                  (<["__webdriverNextAlert" := JNull]> (window (snd first))))))) as E2.
  { subst second. apply hook_alert_passes; [exact Hh | now rewrite Hn]. }
  destruct Hh as (_ & Hq1 & _).
  rewrite E2. cbn [fst snd]. rewrite E1 at 1. cbn [fst].
  repeat split; try assumption.
  - cbn [dialogs show set_window]. now rewrite Hd.
  - unfold prop. cbn [window show set_window]. now rewrite lookup_insert_eq.
  - unfold prop. cbn [window show set_window].
    rewrite (lookup_insert_ne (M := gmap string)) by discriminate.
    now rewrite lookup_insert_eq.
Qed.

(** ** Decimal numerals *)

Section Numerals.

Import PyStr.

Lemma digit_char_facts c :
  is_ascii_digit c = true ->
  isspace_char c = false /\ Ascii.eqb c "=" = false /\ Ascii.eqb c "_" = false
  /\ c <> "-"%char /\ c <> "+"%char /\ isdigit_char c = true.
Proof.
  destruct c as [[|] [|] [|] [|] [|] [|] [|] [|]]; cbv; intros H;
    try discriminate H; repeat split; discriminate.
Qed.

Lemma digits_of_uint d : all_chars is_ascii_digit (NilEmpty.string_of_uint d) = true.
Proof. induction d; cbn [NilEmpty.string_of_uint all_chars]; try rewrite IHd; reflexivity. Qed.

Lemma str_of_N_digits n : all_chars is_ascii_digit (str_of_N n) = true.
Proof.
  unfold str_of_N, NilZero.string_of_uint.
  destruct (N.to_uint n) eqn:E; try reflexivity; rewrite <- E; apply digits_of_uint.
Qed.

Lemma str_of_N_nonempty n : exists c s, str_of_N n = String c s.
Proof.
  unfold str_of_N, NilZero.string_of_uint.
  destruct (N.to_uint n); cbn; eauto.
Qed.

Lemma uint_of_str_of_N n :
  N.of_uint <$> NilEmpty.uint_of_string (str_of_N n) = Some n.
Proof.
  unfold str_of_N, NilZero.string_of_uint.
  destruct (N.to_uint n) eqn:E;
    [ cbn; f_equal; rewrite <- (DecimalN.Unsigned.of_to n), E; reflexivity
    | rewrite <- E, NilEmpty.usu; cbn; f_equal; apply DecimalN.Unsigned.of_to .. ].
Qed.

Lemma digits_isdigit s :
  all_chars is_ascii_digit s = true -> s <> EmptyString -> isdigit s = true.
Proof.
  intros Hd Hne. unfold isdigit. destruct s as [ | c s']; [contradiction |].
  clear Hne. revert Hd. generalize (String c s'). intros t.
  induction t as [ | a t IH]; [reflexivity |].
  cbn [all_chars]. intros [Ha Ht]%andb_prop.
  rewrite IH by exact Ht. now destruct (digit_char_facts a Ha) as (_ & _ & _ & _ & _ & ->).
Qed.

Lemma digits_split s : all_chars is_ascii_digit s = true -> split "=" s = [s].
Proof.
  induction s as [ | a t IH]; [reflexivity |].
  cbn [all_chars split]. intros [Ha Ht]%andb_prop.
  destruct (digit_char_facts a Ha) as (_ & -> & _). now rewrite IH.
Qed.

Lemma digits_rstrip s : all_chars is_ascii_digit s = true -> rstrip s = s.
Proof.
  induction s as [ | a t IH]; [reflexivity |].
  cbn [all_chars rstrip]. intros [Ha Ht]%andb_prop.
  rewrite IH by exact Ht. destruct (digit_char_facts a Ha) as (-> & _).
  now destruct t.
Qed.

Lemma digits_strip s : all_chars is_ascii_digit s = true -> strip s = s.
Proof.
  intros Hd. unfold strip. destruct s as [ | a t]; [reflexivity |].
  pose proof Hd as [Ha Ht]%andb_prop.
  cbn [lstrip]. destruct (digit_char_facts a Ha) as (-> & _).
  now apply digits_rstrip.
Qed.

Lemma digits_int_digits s :
  all_chars is_ascii_digit s = true -> int_digits true s = Some s.
Proof.
  induction s as [ | a t IH]; [reflexivity |].
  cbn [all_chars int_digits]. intros [Ha Ht]%andb_prop.
  rewrite Ha, IH by exact Ht. reflexivity.
Qed.

End Numerals.

Lemma int_str_of_N n : PyStr.int (PyStr.str_of_N n) = Some (Z.of_N n).
Proof.
  pose proof (str_of_N_digits n) as Hd.
  pose proof (uint_of_str_of_N n) as Hu.
  destruct (str_of_N_nonempty n) as (a & t & E).
  unfold PyStr.int. rewrite digits_strip by exact Hd.
  rewrite E in *. cbn [PyStr.all_chars] in Hd. apply andb_prop in Hd as [Ha Ht].
  destruct (digit_char_facts a Ha) as (_ & _ & _ & Hm & Hp & _).
  assert (PyStr.int_magnitude (String a t) = Some n) as Hmag.
  { unfold PyStr.int_magnitude. cbn [PyStr.int_digits]. rewrite Ha.
    rewrite digits_int_digits by exact Ht. cbn. exact Hu. }
  destruct a as [[|] [|] [|] [|] [|] [|] [|] [|]];
    try (now rewrite Hmag); try (now contradiction Hm); try (now contradiction Hp).
Qed.

Lemma isdigit_str_of_N n : PyStr.isdigit (PyStr.str_of_N n) = true.
Proof.
  apply digits_isdigit; [apply str_of_N_digits |].
  destruct (str_of_N_nonempty n) as (a & t & ->). discriminate.
Qed.

(** ** Frame navigation *)

Lemma ctx_eta c : set_driver c (driver c) = c.
Proof. now destruct c. Qed.

Lemma index_argument_facts s :
  ("index=" +:+ s =? EmptyString)%string = false
  /\ ("index=" +:+ s =? "relative=top")%string = false
  /\ PyStr.startswith ("index=" +:+ s) "index=" = true
  /\ PyStr.split "=" ("index=" +:+ s) = "index" :: PyStr.split "=" s.
Proof. repeat split; reflexivity. Qed.

Lemma switch_index_eq (n : N) (c : Ctx) :
  FrameManager.switch (Some ("index=" +:+ PyStr.str_of_N n)) c
  = if (n <? N.of_nat (length (child_frames c)))%N
    then (inr tt, focused c (frame_path (driver c) ++ [N.to_nat n]))
    else (inl (NoSuchFrameException
                 ("Invalid Frame ID: index=" +:+ PyStr.str_of_N n)), c).
Proof.
  unfold FrameManager.switch, except_NoSuchFrame.
  destruct (index_argument_facts (PyStr.str_of_N n)) as (-> & -> & -> & ->).
  rewrite (digits_split _ (str_of_N_digits n)).
  cbn [orb lookup list_lookup]. unfold bind at 1, or_raise at 1, ret at 1.
  unfold bind at 1. rewrite int_str_of_N. unfold or_raise, ret.
  unfold _get_driver, Driver.switch_to_frame_index, zoom, bind, gets.
  unfold child_frames.
  set (fs := frames_at (document (driver c)) (frame_path (driver c))).
  assert ((0 <=? Z.of_N n)%Z = true) as -> by (apply Z.leb_le; lia).
  cbn [andb].
  destruct (N.ltb_spec n (N.of_nat (length fs))) as [Hlt | Hge].
  - assert ((Z.of_N n <? Z.of_nat (length fs))%Z = true) as -> by (apply Z.ltb_lt; lia).
    replace (Z.to_nat (Z.of_N n)) with (N.to_nat n) by lia. reflexivity.
  - assert ((Z.of_N n <? Z.of_nat (length fs))%Z = false) as -> by (apply Z.ltb_ge; lia).
    unfold raise. cbn [percent_s fst snd]. now rewrite ctx_eta.
Qed.

Lemma switch_named_eq name c :
  name <> EmptyString -> name <> "relative=top" ->
  PyStr.startswith name "index=" = false -> name <> "relative=parent" ->
  FrameManager.switch (Some name) c
  = renamed_frame_failure name c (Driver.switch_to_frame_named name (driver c)).
Proof.
  intros H1 H2 H3 H4.
  unfold FrameManager.switch, except_NoSuchFrame, renamed_frame_failure.
  apply String.eqb_neq in H1, H2, H4. rewrite H1, H2, H3, H4. cbn [orb].
  unfold _get_driver, zoom.
  destruct (Driver.switch_to_frame_named name (driver c)) as [[[] | []] d];
    reflexivity.
Qed.

(** C7: [FrameManager.switch] dispatches on its argument.  No argument,
    the empty string and ["relative=top"] focus the top-level document;
    ["index=<n>"] focuses the child frame at position [n] of the focused
    frame, and fails under the name asked for when there is none;
    ["relative=parent"] focuses the parent frame; any other string goes to
    the driver as a frame name, and the driver's no-such-frame failure is
    raised again with a message that names the string. *)
Theorem FrameManager_switch_dispatch (c : Ctx) :
  FrameManager.switch None c = (inr tt, focused c [])
  /\ FrameManager.switch (Some EmptyString) c = (inr tt, focused c [])
  /\ FrameManager.switch (Some "relative=top") c = (inr tt, focused c [])
  /\ (forall n : N,
      FrameManager.switch (Some ("index=" +:+ PyStr.str_of_N n)) c
      = if (n <? N.of_nat (length (child_frames c)))%N
        then (inr tt, focused c (frame_path (driver c) ++ [N.to_nat n]))
        else (inl (NoSuchFrameException
                     ("Invalid Frame ID: index=" +:+ PyStr.str_of_N n)), c))
  /\ FrameManager.switch (Some "relative=parent") c
     = (inr tt, focused c (removelast (frame_path (driver c))))
  /\ (forall name,
      name <> EmptyString -> name <> "relative=top" ->
      PyStr.startswith name "index=" = false -> name <> "relative=parent" ->
      FrameManager.switch (Some name) c
      = renamed_frame_failure name c (Driver.switch_to_frame_named name (driver c)))
  /\ (forall name e,
      fst (FrameManager.switch name c) = inl e ->
      forall msg, e = NoSuchFrameException msg ->
      msg = "Invalid Frame ID: " +:+ percent_s name).
Proof.
  split; [reflexivity |]. split; [reflexivity |].
  split; [unfold FrameManager.switch, except_NoSuchFrame; cbn; reflexivity |].
  split; [intros n; apply switch_index_eq |].
  split; [unfold FrameManager.switch, except_NoSuchFrame; cbn; reflexivity |].
  split; [intros name; apply switch_named_eq |].
  intros name e He msg ->. unfold FrameManager.switch, except_NoSuchFrame in He.
  match type of He with
  | fst (match ?body with _ => _ end) = _ => destruct body as [[[] | []] c']
  end; cbn in He; try discriminate He.
  now injection He as <-.
Qed.

(** ** Window navigation *)

Lemma self_eta self :
  set_ambient self (set_driver (ambient self) (driver (ambient self))) = self.
Proof. destruct self as [w [ts d]]. reflexivity. Qed.

Lemma py_index_last {A} (l : list A) : py_index l (-1) = last l.
Proof.
  unfold py_index. cbn [Z.leb Z.compare]. rewrite last_lookup.
  destruct l as [ | x l]; [reflexivity |].
  assert ((0 <=? Z.of_nat (length (x :: l)) + -1)%Z = true) as ->
    by (apply Z.leb_le; cbn [length]; lia).
  f_equal. cbn [length]. lia.
Qed.

Lemma py_index_beyond {A} (l : list A) (i : Z) :
  (Z.of_nat (length l) <= i)%Z -> py_index l i = None.
Proof.
  intros H. unfold py_index.
  assert ((0 <=? i)%Z = true) as -> by (apply Z.leb_le; lia).
  apply lookup_ge_None. lia.
Qed.

Lemma startswith_app s p : PyStr.startswith s p = true -> exists r, s = p +:+ r.
Proof.
  revert s. induction p as [ | a p IH]; intros s H.
  - exists s. reflexivity.
  - destruct s as [ | b s]; [discriminate |]. cbn [PyStr.startswith] in H.
    apply andb_prop in H as [Hab Hs]. apply Ascii.eqb_eq in Hab as ->.
    destruct (IH s Hs) as [r ->]. exists r. reflexivity.
Qed.

Lemma switch_to_window_known h d :
  h ∈ window_handles d ->
  Driver.switch_to_window h d = (inr tt, set_current_window d h).
Proof.
  intros H. unfold Driver.switch_to_window, bind, gets, modify.
  now rewrite bool_decide_eq_true_2.
Qed.

(** The numeric branch of [WindowManager.switch] on the numeral of [n]. *)
Lemma switch_numeral_eq (n : N) (self : WindowManager) :
  WindowManager.switch (Some (PyStr.str_of_N n)) self
  = if (n <? N.of_nat (length (handles_of self)))%N
    then (inl (NoSuchWindowException ("Invalid Window ID: " +:+ PyStr.str_of_N n)), self)
    else (inl IndexError, self).
Proof.
  unfold WindowManager.switch, except_NoSuchWindow.
  pose proof (isdigit_str_of_N n) as Hd. pose proof (int_str_of_N n) as Hi.
  destruct (str_of_N_nonempty n) as (a & t & E). rewrite E in *.
  rewrite Hd. unfold bind at 1. rewrite Hi. unfold or_raise at 1, ret at 1.
  unfold WindowManager._switch_by_idx, on_driver, _get_driver, zoom, bind, gets.
  cbn [fst snd]. rewrite !self_eta. fold (handles_of self).
  assert ((Z.of_N n >=? 0)%Z = true) as -> by (apply Z.geb_le; lia).
  rewrite andb_true_r.
  destruct (N.ltb_spec n (N.of_nat (length (handles_of self)))) as [Hlt | Hge].
  - assert ((Z.of_nat (length (handles_of self)) <=? Z.of_N n)%Z = false) as ->
      by (apply Z.leb_gt; lia).
    reflexivity.
  - assert ((Z.of_nat (length (handles_of self)) <=? Z.of_N n)%Z = true) as ->
      by (apply Z.leb_le; lia).
    rewrite py_index_beyond by lia. reflexivity.
Qed.

Create HintDb bindings.

Lemma keeps_ret {A} (a : A) : keeps_bindings (ret a).
Proof. intros self k v H. exact H. Qed.

Lemma keeps_raise {A} e : keeps_bindings (@raise WindowManager A e).
Proof. intros self k v H. exact H. Qed.

Lemma keeps_or_raise {A} e (o : option A) : keeps_bindings (or_raise e o).
Proof. destruct o; [apply keeps_ret | apply keeps_raise]. Qed.

Lemma keeps_gets {A} (f : WindowManager -> A) : keeps_bindings (gets f).
Proof. intros self k v H. exact H. Qed.

Lemma keeps_on_driver {A} (m : M WebDriver A) : keeps_bindings (on_driver m).
Proof.
  intros self k v H. unfold on_driver, _get_driver, zoom.
  destruct (m (driver (ambient self))). exact H.
Qed.

Lemma keeps_bind {A B} (m : M WindowManager A) (f : A -> M WindowManager B) :
  keeps_bindings m -> (forall a, keeps_bindings (f a)) -> keeps_bindings (bind m f).
Proof.
  intros Hm Hf self k v H. unfold bind. specialize (Hm self k v H).
  destruct (m self) as [[e | a] self']; cbn [snd] in *; [exact Hm |].
  now apply Hf.
Qed.

Lemma keeps_except {A} (body handler : M WindowManager A) :
  keeps_bindings body -> keeps_bindings handler ->
  keeps_bindings (except_NoSuchWindow body handler).
Proof.
  intros Hb Hh self k v H. unfold except_NoSuchWindow. specialize (Hb self k v H).
  destruct (body self) as [[[] | a] self']; cbn [snd] in *; try exact Hb.
  now apply Hh.
Qed.

#[export] Hint Resolve keeps_ret keeps_raise keeps_or_raise keeps_gets
  keeps_on_driver keeps_bind keeps_except : bindings.

Lemma keeps_switch_by_idx i : keeps_bindings (WindowManager._switch_by_idx i).
Proof.
  unfold WindowManager._switch_by_idx. apply keeps_bind; [auto with bindings |].
  intros handles. destruct (_ && _); auto with bindings.
Qed.

(** The alias branch writes only under an alias that is not bound yet. *)
Lemma keeps_switch_by_win_ser name : keeps_bindings (WindowManager._switch_by_win_ser name).
Proof.
  unfold WindowManager._switch_by_win_ser.
  destruct (String.eqb name "win_ser_local").
  - apply keeps_bind; [auto with bindings |]. intros handles.
    destruct (0 <? length handles)%nat; auto with bindings.
  - intros self k v H. unfold bind at 1, gets at 1.
    destruct (windows self !! name) as [h | ] eqn:E.
    + clear E. revert self k v H. apply keeps_bind; [auto with bindings |]. intros _.
      apply keeps_bind; [auto with bindings |]. intros o.
      auto 6 with bindings.
    + unfold bind at 1. unfold bind at 1. unfold on_driver at 1, _get_driver, zoom, gets at 1.
      cbn [fst snd]. rewrite self_eta. unfold bind at 1.
      destruct (py_index (window_handles (driver (ambient self))) (-1)) as [h | ];
        [ | exact H].
      unfold or_raise at 1, ret at 1, modify at 1.
      assert (windows (set_windows self (<[name := h]> (windows self))) !! k = Some v) as H'.
      { cbn. rewrite lookup_insert_ne; [exact H | congruence]. }
      revert H'. generalize (set_windows self (<[name:=h]> (windows self))).
      intros self' H'. clear H E. revert self' k v H'.
      apply keeps_bind; [auto with bindings |]. intros o.
      auto 6 with bindings.
Qed.

Lemma keeps_switch arg : keeps_bindings (WindowManager.switch arg).
Proof.
  unfold WindowManager.switch. apply keeps_except; [ | auto with bindings].
  destruct arg as [[ | a t] | ]; [auto 6 with bindings | | auto 6 with bindings].
  destruct (PyStr.isdigit _).
  - apply keeps_bind; [auto with bindings |]. intros i. apply keeps_switch_by_idx.
  - destruct (PyStr.startswith _ _); [apply keeps_switch_by_win_ser | auto with bindings].
Qed.

Lemma keeps_close arg : keeps_bindings (WindowManager.close arg).
Proof.
  unfold WindowManager.close. apply keeps_bind; [ | auto with bindings].
  destruct arg as [[ | a t] | ]; auto using keeps_switch with bindings.
Qed.

Lemma alias_dispatch alias :
  PyStr.startswith alias "win_ser_" = true ->
  exists a t, alias = String a t /\ PyStr.isdigit alias = false.
Proof.
  intros H. destruct (startswith_app _ _ H) as [r ->].
  exists "w"%char, ("in_ser_" +:+ r). split; reflexivity.
Qed.

Lemma switch_alias_first alias self h :
  PyStr.startswith alias "win_ser_" = true -> alias <> "win_ser_local" ->
  windows self !! alias = None ->
  last (handles_of self) = Some h ->
  WindowManager.switch (Some alias) self
  = (inr tt, refocused (set_windows self (<[alias := h]> (windows self))) h).
Proof.
  intros Hp Hl Hnew Hlast.
  destruct (alias_dispatch alias Hp) as (a & t & E & Hd).
  subst alias. unfold WindowManager.switch, except_NoSuchWindow.
  rewrite Hd, Hp. unfold WindowManager._switch_by_win_ser.
  apply String.eqb_neq in Hl. rewrite Hl.
  unfold bind at 1, gets at 1. rewrite Hnew.
  unfold bind at 1. unfold bind at 1.
  unfold on_driver at 1, _get_driver at 1, zoom, gets at 1. cbn [fst snd].
  rewrite self_eta. fold (handles_of self). rewrite py_index_last, Hlast.
  unfold bind at 1, or_raise at 1, ret at 1, modify at 1.
  unfold bind at 1, gets at 1. cbn [windows set_windows].
  rewrite lookup_insert_eq. unfold bind at 1, or_raise at 1, ret at 1.
  unfold on_driver, _get_driver, zoom. cbn [ambient set_windows].
  rewrite switch_to_window_known; [reflexivity |].
  apply last_Some in Hlast as [l' Hl']. unfold handles_of in Hl'. rewrite Hl'.
  apply elem_of_app. right. now left.
Qed.

Lemma switch_alias_again alias self h :
  PyStr.startswith alias "win_ser_" = true -> alias <> "win_ser_local" ->
  windows self !! alias = Some h ->
  h ∈ handles_of self ->
  WindowManager.switch (Some alias) self = (inr tt, refocused self h).
Proof.
  intros Hp Hl Hknown Hopen.
  destruct (alias_dispatch alias Hp) as (a & t & E & Hd).
  subst alias. unfold WindowManager.switch, except_NoSuchWindow.
  rewrite Hd, Hp. unfold WindowManager._switch_by_win_ser.
  apply String.eqb_neq in Hl. rewrite Hl.
  unfold bind at 1, gets at 1. rewrite Hknown.
  unfold bind at 1, ret at 1. unfold bind at 1, gets at 1. rewrite Hknown.
  unfold bind at 1, or_raise at 1, ret at 1.
  unfold on_driver, _get_driver, zoom.
  rewrite switch_to_window_known by exact Hopen. reflexivity.
Qed.

(** C5: an alias that starts with ["win_ser_"] and is not ["win_ser_local"].
    The first switch binds it to the last window handle and focuses that
    window.  Any later switch to the alias focuses the bound handle, as long
    as that window is open, whatever the last handle is by then, and leaves
    the bindings as they are.  No call of [switch] or [close], with any
    argument, removes or changes a binding. *)
Theorem switch_win_ser_alias_remembers (alias h : string) (self : WindowManager) :
  PyStr.startswith alias "win_ser_" = true -> alias <> "win_ser_local" ->
  windows self !! alias = None ->
  last (handles_of self) = Some h ->
  WindowManager.switch (Some alias) self
  = (inr tt, refocused (set_windows self (<[alias := h]> (windows self))) h)
  /\ (forall later : WindowManager,
      windows later = <[alias := h]> (windows self) ->
      h ∈ handles_of later ->
      WindowManager.switch (Some alias) later = (inr tt, refocused later h)
      /\ current_window (driver (ambient (refocused later h))) = h
      /\ windows (refocused later h) = windows later)
  /\ (forall arg (any : WindowManager) k v,
      windows any !! k = Some v ->
      windows (snd (WindowManager.switch arg any)) !! k = Some v
      /\ windows (snd (WindowManager.close arg any)) !! k = Some v).
Proof.
  intros Hp Hl Hnew Hlast. split; [now apply switch_alias_first |]. split.
  - intros later Hw Hopen. split; [ | split; reflexivity].
    apply switch_alias_again; try assumption.
    rewrite Hw. apply lookup_insert_eq.
  - intros arg any k v H. split; [now apply keeps_switch | now apply keeps_close].
Qed.

(** C1 fails on the code: the bounds test of [_switch_by_idx] is the wrong
    way round.  For the numeral of [n], a position inside the handle list
    ends with the invalid-window error and the focus stays where it was; a
    position outside it ends with an [IndexError]. *)
Theorem switch_by_numeric_string_inverted (n : N) (self : WindowManager) :
  WindowManager.switch (Some (PyStr.str_of_N n)) self
  = if (n <? N.of_nat (length (handles_of self)))%N
    then (inl (NoSuchWindowException ("Invalid Window ID: " +:+ PyStr.str_of_N n)), self)
    else (inl IndexError, self).
Proof. apply switch_numeral_eq. Qed.

(** ** The properties on the sample session *)

Lemma get_locator_returns_first_match_witness :
  get_locator [[("css", "miss")]; [("ID", "hit")]; [("id", "other")]] false Sample.context
  = (inr ("id", "hit"),
     looked_up Sample.context (PyInt 30) (PyInt 7) [("css selector", "miss"); ("id", "hit")]).
Proof.
  apply (get_locator_returns_first_match
           [[("css", "miss")]] [("ID", "hit")] [[("id", "other")]]
           [("css selector", "miss")] ("id", "hit") false Sample.context).
  - repeat constructor.
  - repeat constructor. intros H. apply H. reflexivity.
  - reflexivity.
  - discriminate.
Defined.

Lemma get_locator_no_match_raises_witness :
  get_locator [[("css", "miss")]; [("name", "none")]] true Sample.context
  = (inl (NoSuchElementException "Element not found: (css selector, miss)"),
     looked_up Sample.context (PyInt 30) (PyInt 0)
       [("css selector", "miss"); ("name", "none")]).
Proof.
  apply (get_locator_no_match_raises
           [("css", "miss")] [[("name", "none")]]
           ("css selector", "miss") [("name", "none")] true Sample.context).
  - repeat constructor.
  - repeat constructor; intros H; apply H; reflexivity.
Defined.

Lemma get_locator_empty_list_type_error_witness :
  fst (get_locator [] false Sample.context) = inl TypeError.
Proof.
  rewrite (proj1 (proj2 (get_locator_empty_list_type_error false Sample.context))).
  reflexivity.
Defined.

Lemma alert_after_ok_is_suppressed_and_captured_witness :
  let c1 := snd (dialogs_answer_on_next_alert "#OK" hooked_context) in
  let first := window_alert 1 (JStr "saved") (page_of c1) in
  let second := window_alert 2 (JStr "again") (snd first) in
  dialogs (snd first) = []
  /\ prop "__webdriverAlerts" (snd first) = JArr [JStr "saved"]
  /\ dialogs (snd second) = [AlertDialog (JStr "again")].
Proof.
  pose proof (alert_after_ok_is_suppressed_and_captured
                "#OK" (JStr "saved") (JStr "again") [] 0 hooked_context
                eq_refl ltac:(repeat split; reflexivity)) as H.
  cbv zeta in H. destruct H as (_ & H1 & H2 & _ & _ & H3 & _).
  intros c1 first second. split; [exact H1 | split; [exact H2 | exact H3]].
Defined.

(** C4 as stated does not hold: with the overrides in place and ["#ok"]
    given as the answer, the next alert does not reach the browser's own
    dialog. *)
Lemma alert_after_ok_reaches_dialog_counterexample :
  let c1 := snd (dialogs_answer_on_next_alert "#ok" hooked_context) in
  let after := snd (window_alert 2 (JStr "saved") (page_of c1)) in
  prop "__webdriverAlerts" after = JArr [JStr "saved"]
  /\ ~ In (AlertDialog (JStr "saved")) (dialogs after).
Proof. split; [reflexivity | intros H; exact H]. Qed.

Lemma switch_win_ser_alias_remembers_witness :
  WindowManager.switch (Some "win_ser_abc") Sample.manager
  = (inr tt, refocused (set_windows Sample.manager (<["win_ser_abc" := "w1"]> ∅)) "w1")
  /\ last (handles_of Sample.later_manager) = Some "w2"
  /\ WindowManager.switch (Some "win_ser_abc") Sample.later_manager
     = (inr tt, refocused Sample.later_manager "w1").
Proof.
  pose proof (switch_win_ser_alias_remembers "win_ser_abc" "w1" Sample.manager
                eq_refl) as H.
  destruct H as (H1 & H2 & _); [discriminate | reflexivity | reflexivity |].
  split; [exact H1 |]. split; [reflexivity |].
  apply (H2 Sample.later_manager); [reflexivity |].
  unfold handles_of. cbn. apply list_elem_of_In. right. left. reflexivity.
Defined.

Lemma dialogs_replace_idempotent_witness :
  dialogs_replace hooked_context = (inr JUndefined, hooked_context).
Proof.
  apply (proj1 (dialogs_replace_idempotent hooked_context)). reflexivity.
Defined.

Lemma FrameManager_switch_dispatch_witness :
  FrameManager.switch (Some "index=1") Sample.context
  = (inr tt, focused Sample.context [1%nat])
  /\ FrameManager.switch (Some "right") Sample.context
     = (inr tt, focused Sample.context [1%nat])
  /\ FrameManager.switch (Some "nowhere") Sample.context
     = (inl (NoSuchFrameException "Invalid Frame ID: nowhere"), Sample.context).
Proof.
  destruct (FrameManager_switch_dispatch Sample.context)
    as (_ & _ & _ & Hindex & _ & Hname & _).
  split; [exact (Hindex 1%N) |]. split.
  - rewrite (Hname "right" ltac:(discriminate) ltac:(discriminate) eq_refl
                    ltac:(discriminate)).
    reflexivity.
  - rewrite (Hname "nowhere" ltac:(discriminate) ltac:(discriminate) eq_refl
                    ltac:(discriminate)).
    reflexivity.
Defined.

Lemma dialogs_answer_on_next_confirm_ok_or_cancel_witness :
  prop "__webdriverNextConfirm"
    (page_of (snd (dialogs_answer_on_next_confirm "#OK" Sample.context))) = JBool true
  /\ prop "__webdriverNextConfirm"
       (page_of (snd (dialogs_answer_on_next_confirm "yes" Sample.context))) = JBool false.
Proof.
  split.
  - apply (proj1 (proj2 (dialogs_answer_on_next_confirm_ok_or_cancel "#OK" Sample.context))).
    reflexivity.
  - apply (proj2 (proj2 (dialogs_answer_on_next_confirm_ok_or_cancel "yes" Sample.context))).
    discriminate.
Defined.

Lemma switch_by_numeric_string_inverted_witness :
  WindowManager.switch (Some "0") Sample.manager
  = (inl (NoSuchWindowException "Invalid Window ID: 0"), Sample.manager)
  /\ WindowManager.switch (Some "2") Sample.manager = (inl IndexError, Sample.manager).
Proof.
  split.
  - exact (switch_by_numeric_string_inverted 0 Sample.manager).
  - exact (switch_by_numeric_string_inverted 2 Sample.manager).
Defined.

(** * Further properties *)

Local Open Scope list_scope.

(** ** Locator resolution on any list *)

(** One round of the loop of [get_locator], whatever the candidate is. *)
Lemma loop_step timeout first locator rest c :
  get_locator_loop timeout first (locator :: rest) c
  = match locator with
    | [] => (inl IndexError, c)
    | (k, v) :: _ =>
        let c0 := match first with None => c | Some _ => waiting c (PyInt 0) end in
        match BYS !! PyStr.lower k with
        | None => (inl (KeyError (PyStr.lower k)), c0)
        | Some by_ =>
            if (0 <? length (dom (driver c) by_ v))%nat
            then (inr (by_, v), waiting (logged c0 by_ v) timeout)
            else get_locator_loop timeout
                   (Some (match first with None => (by_, v) | Some f => f end))
                   rest (logged c0 by_ v)
        end
    end.
Proof.
  destruct locator as [ | [k v] tl]; [reflexivity |].
  cbn [get_locator_loop]. run. cbn [keys map head fst dict_get].
  rewrite String.eqb_refl.
  destruct first as [f | ]; destruct (BYS !! PyStr.lower k) as [by_ | ];
    cbn; try reflexivity;
    destruct (dom (driver c) by_ v); reflexivity.
Qed.

Lemma only_waited_refl c : only_waited_and_looked_up c c.
Proof. repeat split. exists []. now rewrite app_nil_r. Qed.

Lemma only_waited_trans c1 c2 c3 :
  only_waited_and_looked_up c1 c2 -> only_waited_and_looked_up c2 c3 ->
  only_waited_and_looked_up c1 c3.
Proof.
  intros (A1 & A2 & A3 & A4 & A5 & A6 & A7 & m1 & A8)
         (B1 & B2 & B3 & B4 & B5 & B6 & B7 & m2 & B8).
  repeat split; try congruence.
  exists (m1 ++ m2). rewrite B8, A8. now rewrite app_assoc.
Qed.

Lemma only_waited_waiting c w : only_waited_and_looked_up c (waiting c w).
Proof. repeat split. exists []. cbn. now rewrite app_nil_r. Qed.

Lemma only_waited_logged c by_ v : only_waited_and_looked_up c (logged c by_ v).
Proof. repeat split. eexists. reflexivity. Qed.

#[export] Hint Resolve only_waited_refl only_waited_waiting only_waited_logged : bindings.

Lemma loop_only_waited timeout locators : forall first c,
  only_waited_and_looked_up c (snd (get_locator_loop timeout first locators c)).
Proof.
  induction locators as [ | l rest IH]; intros first c.
  - destruct first as [[by_ v] | ]; cbn; apply only_waited_waiting.
  - rewrite loop_step. destruct l as [ | [k v] tl]; [apply only_waited_refl |].
    cbv zeta.
    assert (only_waited_and_looked_up c
              match first with None => c | Some _ => waiting c (PyInt 0) end) as H0
      by (destruct first; auto with bindings).
    destruct (BYS !! PyStr.lower k) as [by_ | ]; [ | exact H0].
    destruct (0 <? length (dom (driver c) by_ v))%nat.
    + cbn [snd]. eapply only_waited_trans; [exact H0 |].
      eapply only_waited_trans; [apply only_waited_logged | apply only_waited_waiting].
    + eapply only_waited_trans; [exact H0 |].
      eapply only_waited_trans; [apply only_waited_logged | apply IH].
Qed.

(** X1: whatever the list and whatever the outcome, [get_locator] changes
    nothing of the context but the implicit wait and the log of lookups,
    and it only adds to that log. *)
Theorem get_locator_only_waits_and_looks_up
    (locators : list dict) (ignore_implicit_wait : bool) (c : Ctx) :
  only_waited_and_looked_up c (snd (get_locator locators ignore_implicit_wait c)).
Proof.
  rewrite get_locator_eq. destruct ignore_implicit_wait; [ | apply loop_only_waited].
  eapply only_waited_trans; [apply (only_waited_waiting c (PyInt 0)) |].
  apply loop_only_waited.
Qed.

Lemma loop_sound timeout locators : forall first c t c',
  get_locator_loop timeout first locators c = (inr t, c') ->
  implicit_wait (driver c') = timeout
  /\ exists l, In l locators /\ resolve l = Some t /\ matches (driver c) t.
Proof.
  induction locators as [ | l rest IH]; intros first c t c' H.
  - destruct first as [[by_ v] | ]; discriminate H.
  - rewrite loop_step in H. destruct l as [ | [k v] tl]; [discriminate H |].
    cbv zeta in H. destruct (BYS !! PyStr.lower k) as [by_ | ] eqn:E; [ | discriminate H].
    destruct (dom (driver c) by_ v) as [ | e es] eqn:D; cbn [length Nat.ltb Nat.leb] in H.
    + apply IH in H as (Hw & l & Hl & Hr & Hm). split; [exact Hw |].
      exists l. split; [now right |]. split; [exact Hr |].
      unfold matches in *. destruct first; exact Hm.
    + injection H as <- <-. split; [reflexivity |].
      exists ((k, v) :: tl). split; [now left |]. split.
      * unfold resolve. now rewrite E.
      * unfold matches. cbn. rewrite D. discriminate.
Qed.

(** X2: when [get_locator] returns, for any list at all, the pair it
    returns is the selector of one of the candidates, the driver finds an
    element for it, and the implicit wait is the ambient timeout. *)
Theorem get_locator_returns_only_a_matching_candidate
    (locators : list dict) (ignore_implicit_wait : bool) (c c' : Ctx)
    (t : string * string) :
  get_locator locators ignore_implicit_wait c = (inr t, c') ->
  implicit_wait (driver c') = ambient_timeout c
  /\ exists l, In l locators /\ resolve l = Some t /\ matches (driver c) t.
Proof.
  rewrite get_locator_eq. intros H. apply loop_sound in H as (Hw & l & Hl & Hr & Hm).
  split; [exact Hw |]. exists l. repeat split; try assumption.
  destruct ignore_implicit_wait; exact Hm.
Qed.

(** X3: a candidate whose strategy [BYS] does not know ends the call with
    a [KeyError] on the lowered strategy.  As the first candidate it leaves
    the context as the call found it (with the wait at zero under the flag);
    after candidates that resolved and matched nothing it leaves the
    implicit wait at zero: the ambient timeout is not put back. *)
Theorem get_locator_unknown_strategy_leaves_wait
    (k v : string) (tl : dict) (post : list dict)
    (ignore_implicit_wait : bool) (c : Ctx) :
  BYS !! PyStr.lower k = None ->
  get_locator (((k, v) :: tl) :: post) ignore_implicit_wait c
  = (inl (KeyError (PyStr.lower k)),
     if ignore_implicit_wait then waiting c (PyInt 0) else c)
  /\ forall l1 pre t1 tpre,
     Forall2 (fun l t => resolve l = Some t) (l1 :: pre) (t1 :: tpre) ->
     Forall (fun t => ~ matches (driver c) t) (t1 :: tpre) ->
     get_locator ((l1 :: pre) ++ ((k, v) :: tl) :: post) ignore_implicit_wait c
     = (inl (KeyError (PyStr.lower k)),
        looked_up c (PyInt 0) (first_wait ignore_implicit_wait c) (t1 :: tpre)).
Proof.
  intros Hk. split.
  - rewrite get_locator_eq, loop_step. cbv zeta. rewrite Hk.
    destruct ignore_implicit_wait; reflexivity.
  - intros l1 pre t1 tpre H2 Hno. rewrite get_locator_eq.
    inversion H2 as [ | ? ? ? ? Hl Hpre]; subst.
    inversion Hno as [ | ? ? Ht1 Hts]; subst.
    cbn [app].
    assert (forall c0, ~ matches (driver c0) t1 ->
              Forall (fun t => ~ matches (driver c0) t) tpre ->
              get_locator_loop (ambient_timeout c) None
                (l1 :: pre ++ ((k, v) :: tl) :: post) c0
              = (inl (KeyError (PyStr.lower k)),
                 looked_up c0 (PyInt 0) (implicit_wait (driver c0)) (t1 :: tpre))) as Hloop.
    { intros c0 Hm1 Hms.
      rewrite (loop_first_miss _ _ t1) by assumption.
      rewrite (loop_later_misses _ _ _ tpre) by assumption.
      rewrite loop_step. cbv zeta. rewrite Hk.
      unfold looked_up, waiting. cbn [driver set_driver].
      rewrite misses_then_wait.
      unfold lookups, set_finds, set_implicit_wait. cbn.
      now rewrite <- app_assoc. }
    destruct ignore_implicit_wait.
    + rewrite Hloop by assumption. reflexivity.
    + now rewrite Hloop.
Qed.

(** ** The timeout of locator resolution *)

Lemma loop_restores timeout locators : forall first c,
  ran_to_the_end (fst (get_locator_loop timeout first locators c)) ->
  implicit_wait (driver (snd (get_locator_loop timeout first locators c))) = timeout.
Proof.
  induction locators as [ | l rest IH]; intros first c.
  - destruct first as [[by_ v] | ]; intros _; reflexivity.
  - rewrite loop_step. destruct l as [ | [k v] tl]; [intros [] |].
    cbv zeta. destruct (BYS !! PyStr.lower k) as [by_ | ]; [ | intros []].
    destruct (0 <? length (dom (driver c) by_ v))%nat; [intros _; reflexivity |].
    apply IH.
Qed.

Lemma loop_first_lookup timeout l rest t c :
  resolve l = Some t ->
  exists more,
    finds (driver (snd (get_locator_loop timeout None (l :: rest) c)))
    = finds (driver c) ++ (t.1, t.2, implicit_wait (driver c)) :: more.
Proof.
  intros Hr. apply resolve_inv in Hr as (k & tl & -> & Hby).
  destruct t as [by_ v]. cbn [fst snd] in *.
  rewrite loop_step. cbv zeta. rewrite Hby.
  destruct (0 <? length (dom (driver c) by_ v))%nat.
  - exists []. reflexivity.
  - destruct (loop_only_waited timeout rest (Some (by_, v)) (logged c by_ v))
      as (_ & _ & _ & _ & _ & _ & _ & more & Hmore).
    exists more. rewrite Hmore. cbn [logged driver set_driver finds set_finds].
    now rewrite <- app_assoc.
Qed.

(** C8, as the code has it: with no timeout in the ambient store
    (missing, [None] or empty) the timeout of locator resolution is 30; a
    stored value, zero included, is used as it is.  This timeout is what the
    implicit wait is set to whenever [get_locator] comes to the end of its
    loop (a return, or the errors of the no-match branch).  It is not the
    wait the first candidate is looked up under: that is the wait the driver
    already has, or zero under [ignore_implicit_wait]. *)
Theorem timeout_defaults_to_30_and_is_restored (c : Ctx) :
  _get_timeout c = (inr (ambient_timeout c), c)
  /\ (holds_timeout (default PyNone (thread_store c !! "timeout")) = false ->
      _get_timeout c = (inr (PyInt 30), c))
  /\ (forall v, thread_store c !! "timeout" = Some v -> holds_timeout v = true ->
      _get_timeout c = (inr v, c))
  /\ (thread_store c !! "timeout" = Some (PyInt 0) ->
      _get_timeout c = (inr (PyInt 0), c))
  /\ (forall locators ignore_implicit_wait,
      ran_to_the_end (fst (get_locator locators ignore_implicit_wait c)) ->
      implicit_wait (driver (snd (get_locator locators ignore_implicit_wait c)))
      = ambient_timeout c)
  /\ (forall l rest t ignore_implicit_wait,
      resolve l = Some t ->
      exists more,
        finds (driver (snd (get_locator (l :: rest) ignore_implicit_wait c)))
        = finds (driver c) ++ (t.1, t.2, first_wait ignore_implicit_wait c) :: more).
Proof.
  split; [apply _get_timeout_eq |]. split; [ | split; [ | split; [ | split]]].
  - intros H. rewrite _get_timeout_eq. unfold ambient_timeout. now rewrite H.
  - intros v Hv H. rewrite _get_timeout_eq. unfold ambient_timeout.
    rewrite Hv. cbn. now rewrite H.
  - intros Hv. rewrite _get_timeout_eq. unfold ambient_timeout. now rewrite Hv.
  - intros locators ignore. rewrite get_locator_eq. apply loop_restores.
  - intros l rest t ignore Hr. rewrite get_locator_eq.
    destruct ignore.
    + exact (loop_first_lookup _ l rest t (waiting c (PyInt 0)) Hr).
    + exact (loop_first_lookup _ l rest t c Hr).
Qed.

(** ** Window navigation: the other branches *)

Lemma on_driver_switch_to_window h self :
  on_driver (Driver.switch_to_window h) self
  = if bool_decide (h ∈ handles_of self)
    then (inr tt, refocused self h)
    else (inl (NoSuchWindowException h), self).
Proof.
  unfold on_driver, _get_driver, zoom, Driver.switch_to_window, bind, gets, modify, raise.
  cbn [fst snd]. fold (handles_of self).
  destruct (bool_decide (h ∈ handles_of self)); [reflexivity |].
  now rewrite self_eta.
Qed.

Lemma on_driver_handles self :
  on_driver (gets window_handles) self = (inr (handles_of self), self).
Proof.
  unfold on_driver, _get_driver, zoom, gets. cbn [fst snd]. now rewrite self_eta.
Qed.

Lemma last_elem_of {A} (l : list A) (x : A) : last l = Some x -> x ∈ l.
Proof.
  intros H. apply last_Some in H as [l' ->]. apply elem_of_app. right. now left.
Qed.

(** [_switch_by_idx] on any index. *)
Lemma switch_by_idx_eq (i : Z) (self : WindowManager) :
  WindowManager._switch_by_idx i self
  = (inl (if (Z.of_nat (length (handles_of self)) <=? i)%Z
          then IndexError
          else NoSuchWindowException ("Invalid Window ID: " +:+ PyStr.str_of_Z i)),
     self).
Proof.
  unfold WindowManager._switch_by_idx. unfold bind at 1. rewrite on_driver_handles.
  destruct (Z.leb_spec (Z.of_nat (length (handles_of self))) i) as [Hle | Hgt].
  - assert ((i >=? 0)%Z = true) as -> by (apply Z.geb_le; lia).
    cbn [andb]. unfold bind. rewrite py_index_beyond by exact Hle. reflexivity.
  - cbn [andb]. reflexivity.
Qed.

(** X4: [_switch_by_idx] never moves the focus.  For every index it ends
    with an error and leaves the instance and the driver as they were: an
    [IndexError] for an index at or beyond the number of handles, the
    invalid-window error for every other index, negative ones included. *)
Theorem switch_by_idx_never_switches (i : Z) (self : WindowManager) :
  snd (WindowManager._switch_by_idx i self) = self
  /\ ((Z.of_nat (length (handles_of self)) <= i)%Z ->
      fst (WindowManager._switch_by_idx i self) = inl IndexError)
  /\ ((i < Z.of_nat (length (handles_of self)))%Z ->
      fst (WindowManager._switch_by_idx i self)
      = inl (NoSuchWindowException ("Invalid Window ID: " +:+ PyStr.str_of_Z i))).
Proof.
  rewrite switch_by_idx_eq. cbn [fst snd]. split; [reflexivity |]. split; intros H.
  - now apply Z.leb_le in H as ->.
  - now apply Z.leb_gt in H as ->.
Qed.

Lemma switch_without_name_eq (arg : option string) (self : WindowManager) :
  arg = None \/ arg = Some EmptyString ->
  WindowManager.switch arg self
  = match last (handles_of self) with
    | Some h => (inr tt, refocused self h)
    | None => (inl IndexError, self)
    end.
Proof.
  intros [-> | ->];
    unfold WindowManager.switch, except_NoSuchWindow;
    unfold bind at 1; rewrite on_driver_handles; unfold bind;
    rewrite py_index_last;
    (destruct (last (handles_of self)) as [h | ] eqn:E; [ | reflexivity]);
    cbn [or_raise ret]; rewrite on_driver_switch_to_window;
    now rewrite bool_decide_eq_true_2 by (now apply last_elem_of).
Qed.

(** X5: with no argument, or with the empty string, [switch] focuses the
    last window handle; with no window at all it ends with an [IndexError]
    and changes nothing. *)
Theorem switch_without_name_focuses_last (arg : option string) (self : WindowManager) :
  arg = None \/ arg = Some EmptyString ->
  WindowManager.switch arg self
  = match last (handles_of self) with
    | Some h => (inr tt, refocused self h)
    | None => (inl IndexError, self)
    end.
Proof. apply switch_without_name_eq. Qed.

Lemma switch_win_ser_local_eq (self : WindowManager) :
  WindowManager.switch (Some "win_ser_local") self
  = match handles_of self with
    | h :: _ => (inr tt, refocused self h)
    | [] => (inl (NoSuchWindowException "Invalid Window ID: win_ser_local"), self)
    end.
Proof.
  unfold WindowManager.switch, except_NoSuchWindow.
  change (PyStr.isdigit "win_ser_local") with false.
  change (PyStr.startswith "win_ser_local" "win_ser_") with true. cbv iota.
  unfold WindowManager._switch_by_win_ser.
  change (String.eqb "win_ser_local" "win_ser_local") with true. cbv iota.
  unfold bind at 1. rewrite on_driver_handles.
  destruct (handles_of self) as [ | h hs] eqn:E; [reflexivity |].
  cbn [length Nat.ltb Nat.leb]. unfold bind, or_raise, ret.
  change (py_index (h :: hs) 0) with (Some h). cbv iota beta.
  rewrite on_driver_switch_to_window, E.
  rewrite bool_decide_eq_true_2 by now left. reflexivity.
Qed.

(** X6: ["win_ser_local"] focuses the first window handle; with no window
    at all the call ends with the invalid-window error that names the
    alias.  No binding is made for it. *)
Theorem switch_win_ser_local_focuses_first (self : WindowManager) :
  WindowManager.switch (Some "win_ser_local") self
  = match handles_of self with
    | h :: _ => (inr tt, refocused self h)
    | [] => (inl (NoSuchWindowException "Invalid Window ID: win_ser_local"), self)
    end.
Proof. apply switch_win_ser_local_eq. Qed.

Lemma switch_literal_name_eq (name : string) (self : WindowManager) :
  name <> EmptyString -> PyStr.isdigit name = false ->
  PyStr.startswith name "win_ser_" = false ->
  WindowManager.switch (Some name) self
  = if bool_decide (name ∈ handles_of self)
    then (inr tt, refocused self name)
    else (inl (NoSuchWindowException ("Invalid Window ID: " +:+ name)), self).
Proof.
  intros Hne Hd Hp. destruct name as [ | a t]; [contradiction |].
  unfold WindowManager.switch, except_NoSuchWindow. rewrite Hd, Hp.
  rewrite on_driver_switch_to_window.
  destruct (bool_decide (String a t ∈ handles_of self)); reflexivity.
Qed.

(** X7: any other name (not empty, not all digits, not starting with
    ["win_ser_"]) goes to the driver as a window handle: the focus moves to
    it when it is one of the handles; otherwise the call ends with the
    invalid-window error that names it and changes nothing. *)
Theorem switch_by_window_name (name : string) (self : WindowManager) :
  name <> EmptyString -> PyStr.isdigit name = false ->
  PyStr.startswith name "win_ser_" = false ->
  WindowManager.switch (Some name) self
  = if bool_decide (name ∈ handles_of self)
    then (inr tt, refocused self name)
    else (inl (NoSuchWindowException ("Invalid Window ID: " +:+ name)), self).
Proof. apply switch_literal_name_eq. Qed.

(** The alias branch of [switch], for an alias other than ["win_ser_local"]. *)
Lemma switch_alias_eq alias self :
  PyStr.startswith alias "win_ser_" = true -> alias <> "win_ser_local" ->
  WindowManager.switch (Some alias) self
  = match windows self !! alias with
    | Some h =>
        if bool_decide (h ∈ handles_of self)
        then (inr tt, refocused self h)
        else (inl (NoSuchWindowException ("Invalid Window ID: " +:+ alias)), self)
    | None =>
        match last (handles_of self) with
        | Some h =>
            (inr tt, refocused (set_windows self (<[alias := h]> (windows self))) h)
        | None => (inl IndexError, self)
        end
    end.
Proof.
  intros Hp Hl.
  destruct (windows self !! alias) as [h | ] eqn:Hw.
  - destruct (bool_decide (h ∈ handles_of self)) eqn:Hb.
    + apply bool_decide_eq_true_1 in Hb. now apply switch_alias_again.
    + destruct (alias_dispatch alias Hp) as (a & t & E & Hd).
      subst alias. unfold WindowManager.switch, except_NoSuchWindow.
      rewrite Hd, Hp. unfold WindowManager._switch_by_win_ser.
      apply String.eqb_neq in Hl. rewrite Hl.
      unfold bind at 1, gets at 1. rewrite Hw.
      unfold bind at 1, ret at 1. unfold bind at 1, gets at 1. rewrite Hw.
      unfold bind at 1, or_raise at 1, ret at 1.
      rewrite on_driver_switch_to_window, Hb. reflexivity.
  - destruct (last (handles_of self)) as [h | ] eqn:Hlast.
    + now apply switch_alias_first.
    + destruct (alias_dispatch alias Hp) as (a & t & E & Hd).
      subst alias. unfold WindowManager.switch, except_NoSuchWindow.
      rewrite Hd, Hp. unfold WindowManager._switch_by_win_ser.
      apply String.eqb_neq in Hl. rewrite Hl.
      unfold bind at 1, gets at 1. rewrite Hw.
      unfold bind at 1. unfold bind at 1. rewrite on_driver_handles.
      unfold bind at 1. rewrite py_index_last, Hlast. reflexivity.
Qed.

(** X8: an alias whose remembered window is no longer among the handles:
    the switch ends with the invalid-window error that names the alias, the
    focus stays, and the alias keeps its binding (it is not bound again to
    the window that is last by now). *)
Theorem switch_alias_to_closed_window_fails (alias h : string) (self : WindowManager) :
  PyStr.startswith alias "win_ser_" = true -> alias <> "win_ser_local" ->
  windows self !! alias = Some h ->
  h ∉ handles_of self ->
  WindowManager.switch (Some alias) self
  = (inl (NoSuchWindowException ("Invalid Window ID: " +:+ alias)), self).
Proof.
  intros Hp Hl Hw Hgone. rewrite switch_alias_eq by assumption. rewrite Hw.
  now rewrite bool_decide_eq_false_2.
Qed.

(** X9: an alias seen for the first time while the driver has no window:
    the switch ends with an [IndexError] and no binding is made. *)
Theorem switch_new_alias_without_windows_fails (alias : string) (self : WindowManager) :
  PyStr.startswith alias "win_ser_" = true -> alias <> "win_ser_local" ->
  windows self !! alias = None ->
  handles_of self = [] ->
  WindowManager.switch (Some alias) self = (inl IndexError, self).
Proof.
  intros Hp Hl Hw Hnone. rewrite switch_alias_eq by assumption.
  now rewrite Hw, Hnone.
Qed.

Lemma switch_named_unfold name self :
  name <> EmptyString ->
  WindowManager.switch (Some name) self
  = except_NoSuchWindow
      (if PyStr.isdigit name
       then let* i := or_raise ValueError (PyStr.int name) in
            WindowManager._switch_by_idx i
       else if PyStr.startswith name "win_ser_"
            then WindowManager._switch_by_win_ser name
            else on_driver (Driver.switch_to_window name))
      (raise (NoSuchWindowException ("Invalid Window ID: " +:+ name))) self.
Proof. intros H. destruct name; [contradiction | reflexivity]. Qed.

(** Every outcome of [switch]: the focus moved to an open window, with at
    most one new binding made for the argument, or an error and no change. *)
Lemma switch_cases arg self :
  (exists h, h ∈ handles_of self
             /\ WindowManager.switch arg self = (inr tt, refocused self h))
  \/ (exists alias h, h ∈ handles_of self /\ arg = Some alias
                      /\ windows self !! alias = None
                      /\ WindowManager.switch arg self
                         = (inr tt, refocused (set_windows self
                                       (<[alias := h]> (windows self))) h))
  \/ (exists e, WindowManager.switch arg self = (inl e, self)
                /\ forall msg, e = NoSuchWindowException msg ->
                               msg = "Invalid Window ID: " +:+ percent_s arg).
Proof.
  destruct arg as [[ | a t] | ].
  - rewrite (switch_without_name_eq (Some EmptyString)) by now right.
    destruct (last (handles_of self)) as [h | ] eqn:E.
    + left. exists h. split; [now apply last_elem_of | reflexivity].
    + right. right. exists IndexError. split; [reflexivity | discriminate].
  - assert (String a t <> EmptyString) as Hne by discriminate.
    revert Hne. generalize (String a t). intros name Hne.
    destruct (PyStr.isdigit name) eqn:Hd.
    + right. right. rewrite switch_named_unfold by exact Hne.
      unfold except_NoSuchWindow. rewrite Hd. unfold bind.
      destruct (PyStr.int name) as [i | ]; cbn [or_raise ret raise].
      * rewrite switch_by_idx_eq.
        destruct (Z.of_nat (length (handles_of self)) <=? i)%Z.
        -- exists IndexError. split; [reflexivity | discriminate].
        -- eexists. split; [reflexivity |]. now intros msg [= <-].
      * exists ValueError. split; [reflexivity | discriminate].
    + destruct (PyStr.startswith name "win_ser_") eqn:Hp.
      * destruct (String.eqb_spec name "win_ser_local") as [Hl | Hl].
        -- rewrite Hl, switch_win_ser_local_eq.
           destruct (handles_of self) as [ | h hs].
           ++ right. right. eexists. split; [reflexivity |]. now intros msg [= <-].
           ++ left. exists h. split; [now left | reflexivity].
        -- rewrite switch_alias_eq by assumption.
           destruct (windows self !! name) as [h | ] eqn:Hw.
           ++ destruct (bool_decide (h ∈ handles_of self)) eqn:Hb.
              ** left. exists h. split; [exact (bool_decide_eq_true_1 _ Hb) | reflexivity].
              ** right. right. eexists. split; [reflexivity |]. now intros msg [= <-].
           ++ destruct (last (handles_of self)) as [h | ] eqn:E.
              ** right. left. exists name, h.
                 split; [now apply last_elem_of |]. repeat split; assumption.
              ** right. right. exists IndexError. split; [reflexivity | discriminate].
      * rewrite switch_literal_name_eq by assumption.
        destruct (bool_decide (name ∈ handles_of self)) eqn:Hb.
        -- left. exists name. split; [exact (bool_decide_eq_true_1 _ Hb) | reflexivity].
        -- right. right. eexists. split; [reflexivity |]. now intros msg [= <-].
  - rewrite (switch_without_name_eq None) by now left.
    destruct (last (handles_of self)) as [h | ] eqn:E.
    + left. exists h. split; [now apply last_elem_of | reflexivity].
    + right. right. exists IndexError. split; [reflexivity | discriminate].
Qed.

(** X10: a call of [switch] that ends with an error, whatever the
    argument and the error, leaves the instance and the driver exactly as
    they were: no focus moved, no binding made. *)
Theorem switch_failure_changes_nothing
    (arg : option string) (self : WindowManager) (e : exn) :
  fst (WindowManager.switch arg self) = inl e ->
  snd (WindowManager.switch arg self) = self.
Proof.
  intros H.
  destruct (switch_cases arg self)
    as [(h & _ & E) | [(alias & h & _ & _ & _ & E) | (e' & E & _)]];
    rewrite E in *; [discriminate H | discriminate H | reflexivity].
Qed.

(** X11: a call of [switch] that returns leaves the focus on a window
    that is among the driver's handles, leaves the handles as they were, and
    leaves every binding it found; the only binding it can add is one for
    its own argument. *)
Theorem switch_success_focuses_open_window
    (arg : option string) (self self' : WindowManager) :
  WindowManager.switch arg self = (inr tt, self') ->
  focus_of self' ∈ handles_of self'
  /\ handles_of self' = handles_of self
  /\ (windows self' = windows self
      \/ exists alias, arg = Some alias /\ windows self !! alias = None
                       /\ windows self' = <[alias := focus_of self']> (windows self)).
Proof.
  intros H.
  destruct (switch_cases arg self)
    as [(h & Hh & E) | [(alias & h & Hh & Ha & Hw & E) | (e' & E & _)]];
    rewrite E in H; [ | | discriminate H]; injection H as <-.
  - split; [exact Hh |]. split; [reflexivity |]. now left.
  - split; [exact Hh |]. split; [reflexivity |]. right. exists alias. now repeat split.
Qed.

(** X12: every invalid-window error that leaves [switch] carries the
    message ["Invalid Window ID: "] followed by the argument of the call. *)
Theorem switch_invalid_window_names_argument
    (arg : option string) (self : WindowManager) (msg : string) :
  fst (WindowManager.switch arg self) = inl (NoSuchWindowException msg) ->
  msg = "Invalid Window ID: " +:+ percent_s arg.
Proof.
  intros H.
  destruct (switch_cases arg self)
    as [(h & _ & E) | [(alias & h & _ & _ & _ & E) | (e' & E & Hmsg)]];
    rewrite E in H; [discriminate H | discriminate H |].
  cbn [fst] in H. injection H as ->. now apply Hmsg.
Qed.




(** ** Frame navigation: the other behaviour *)

Lemma split_nonempty sep s : exists w ws, PyStr.split sep s = w :: ws.
Proof.
  induction s as [ | a t (w & ws & IH)]; cbn [PyStr.split]; [eauto |].
  destruct (Ascii.eqb a sep); [eauto |]. rewrite IH. eauto.
Qed.

Lemma frame_move_default : frame_move Driver.switch_to_default_content.
Proof. intros d. left. eexists. reflexivity. Qed.

Lemma frame_move_parent : frame_move Driver.switch_to_parent_frame.
Proof. intros d. left. eexists. reflexivity. Qed.

Lemma frame_move_index i : frame_move (Driver.switch_to_frame_index i).
Proof.
  intros d. unfold Driver.switch_to_frame_index, bind, gets, modify, raise.
  destruct (_ && _); [left | right]; eexists; reflexivity.
Qed.

Lemma frame_move_named s : frame_move (Driver.switch_to_frame_named s).
Proof.
  intros d. unfold Driver.switch_to_frame_named, bind, gets, modify, raise.
  destruct (index_where (has_id s) _); [left; eexists; reflexivity |].
  destruct (index_where (has_name s) _); [left | right]; eexists; reflexivity.
Qed.

Lemma frame_move_switch m name c :
  frame_move m ->
  (exists path, except_NoSuchFrame (_get_driver m)
                  (raise (NoSuchFrameException name)) c = (inr tt, focused c path))
  \/ (exists e, except_NoSuchFrame (_get_driver m)
                  (raise (NoSuchFrameException name)) c = (inl e, c)).
Proof.
  intros Hm. unfold except_NoSuchFrame, _get_driver, zoom.
  destruct (Hm (driver c)) as [(path & ->) | (e & ->)].
  - left. exists path. reflexivity.
  - right. rewrite ctx_eta. destruct e; eexists; reflexivity.
Qed.

Lemma except_frame_bind_some {S A B} (e : exn) (a : A) (k : A -> M S B) h (s : S) :
  except_NoSuchFrame (bind (or_raise e (Some a)) k) h s = except_NoSuchFrame (k a) h s.
Proof. reflexivity. Qed.

Lemma frame_switch_cases arg c :
  (exists path, FrameManager.switch arg c = (inr tt, focused c path))
  \/ (exists e, FrameManager.switch arg c = (inl e, c)).
Proof.
  unfold FrameManager.switch. destruct arg as [name | ].
  - destruct (String.eqb name EmptyString || String.eqb name "relative=top").
    + apply frame_move_switch, frame_move_default.
    + destruct (PyStr.startswith name "index=").
      * destruct (split_nonempty "=" name) as (w & ws & E). rewrite E.
        destruct ws as [ | part ws].
        { right. exists IndexError. reflexivity. }
        cbn [lookup list_lookup]. rewrite !except_frame_bind_some.
        destruct (PyStr.int part) as [i | ].
        -- rewrite !except_frame_bind_some.
           apply frame_move_switch, frame_move_index.
        -- right. exists ValueError. reflexivity.
      * destruct (String.eqb name "relative=parent").
        -- apply frame_move_switch, frame_move_parent.
        -- apply frame_move_switch, frame_move_named.
  - apply frame_move_switch, frame_move_default.
Qed.

(** X14: [FrameManager.switch] touches nothing but the frame focus: when
    it returns, the context differs from the one before at most in the
    focused frame; when it ends with an error, whatever the error, the
    context is exactly as before. *)
Theorem frame_switch_moves_only_the_frame_focus (arg : option string) (c : Ctx) :
  (fst (FrameManager.switch arg c) = inr tt ->
   exists path, snd (FrameManager.switch arg c) = focused c path)
  /\ (forall e, fst (FrameManager.switch arg c) = inl e ->
      snd (FrameManager.switch arg c) = c).
Proof.
  destruct (frame_switch_cases arg c) as [(path & ->) | (e & ->)]; split.
  - intros _. now exists path.
  - discriminate.
  - discriminate.
  - reflexivity.
Qed.

(** X15: for any text after ["index="], the index is what [int] reads
    from the text up to the next ["="] (or to the end).  When [int] rejects
    it the call ends with a [ValueError] and changes nothing; otherwise the
    driver is asked for the child frame at that integer and its
    no-such-frame failure comes back under the whole argument.  The call
    never ends with an [IndexError]. *)
Theorem frame_switch_index_reads_first_field (s : string) (c : Ctx) :
  FrameManager.switch (Some ("index=" +:+ s)) c
  = match PyStr.int (hd EmptyString (PyStr.split "=" s)) with
    | None => (inl ValueError, c)
    | Some i =>
        renamed_frame_failure ("index=" +:+ s) c
          (Driver.switch_to_frame_index i (driver c))
    end.
Proof.
  unfold FrameManager.switch.
  destruct (index_argument_facts s) as (-> & -> & -> & ->).
  destruct (split_nonempty "=" s) as (w & ws & ->).
  cbn [orb lookup list_lookup hd]. rewrite except_frame_bind_some.
  destruct (PyStr.int w) as [i | ]; [ | reflexivity].
  rewrite except_frame_bind_some.
  unfold except_NoSuchFrame, renamed_frame_failure, _get_driver, zoom.
  destruct (Driver.switch_to_frame_index i (driver c)) as [[[] | []] d];
    reflexivity.
Qed.

Lemma removelast_snoc {A} (l : list A) (x : A) : removelast (l ++ [x]) = l.
Proof. rewrite removelast_app by discriminate. cbn. apply app_nil_r. Qed.

Lemma focused_same c : focused c (frame_path (driver c)) = c.
Proof. destruct c as [ts d]. now destruct d. Qed.

(** X16: going into the child frame at position [n] and then to
    ["relative=parent"] brings the context back to where it was; and
    ["relative=parent"] at the top-level document stays there. *)
Theorem frame_switch_parent_undoes_index (n : N) (c : Ctx) :
  ((n < N.of_nat (length (child_frames c)))%N ->
   (FrameManager.switch (Some ("index=" +:+ PyStr.str_of_N n));;
    FrameManager.switch (Some "relative=parent")) c = (inr tt, c))
  /\ (frame_path (driver c) = [] ->
      FrameManager.switch (Some "relative=parent") c = (inr tt, c)).
Proof.
  assert (forall c0, FrameManager.switch (Some "relative=parent") c0
                     = (inr tt, focused c0 (removelast (frame_path (driver c0))))) as Hp.
  { intros c0. unfold FrameManager.switch, except_NoSuchFrame. cbn. reflexivity. }
  split.
  - intros Hlt. unfold bind. rewrite switch_index_eq.
    apply N.ltb_lt in Hlt. rewrite Hlt, Hp.
    unfold focused. cbn [driver set_driver frame_path set_frame_path].
    rewrite removelast_snoc. f_equal. destruct c as [ts d]. now destruct d.
  - intros Htop. rewrite Hp, Htop. cbn [removelast]. rewrite <- Htop.
    now rewrite focused_same.
Qed.

(** ** Dialog interception: queues, answers and the hooks *)

Lemma prop_page_with name v p : prop name (page_with p name v) = v.
Proof. apply prop_assigned. Qed.

Lemma prop_page_with_ne name name' v p :
  name <> name' -> prop name' (page_with p name v) = prop name' p.
Proof. apply prop_assigned_ne. Qed.

Lemma page_with_same name p v : prop name p = v -> window p !! name <> None ->
  page_with p name v = p.
Proof.
  unfold prop, page_with. intros H Hin.
  destruct (window p !! name) as [x | ] eqn:E; [ | contradiction].
  cbn in H. subst x. rewrite insert_id by exact E. now destruct p.
Qed.

Lemma shift_eq name p :
  shift name p
  = match prop name p with
    | JArr [] => (inr JUndefined, p)
    | JArr (v :: items) => (inr v, page_with p name (JArr items))
    | _ => (inl JsTypeError, p)
    end.
Proof.
  unfold shift, bind, gets. destruct (prop name p) as [ | | | | [ | v items] | ];
    reflexivity.
Qed.

Lemma take_oldest_eq name p :
  (let* q := gets (prop name) in
   if negb (js_truthy q) then ret JNull else shift name) p
  = match prop name p with
    | JArr [] => (inr JUndefined, p)
    | JArr (v :: items) => (inr v, page_with p name (JArr items))
    | v => if js_truthy v then (inl JsTypeError, p) else (inr JNull, p)
    end.
Proof.
  unfold bind, gets.
  destruct (prop name p) as [ | | [] | s | [ | v items] | f ] eqn:E;
    cbn [js_truthy negb]; try destruct (String.eqb s EmptyString);
    cbn [negb]; rewrite ?shift_eq, ?E; reflexivity.
Qed.

Lemma with_prop_page c name v :
  set_driver c (set_current_page (driver c) (page_with (page_of c) name v))
  = with_prop c name v.
Proof. reflexivity. Qed.

(** X17: [dialogs_get_next_confirm] and [dialogs_get_next_prompt] take
    the oldest message off their queue and return it.  Before
    [dialogs_replace] has run (no queue in the page) they return [null];
    on an empty queue they return [undefined]; in both cases nothing
    changes. *)
Theorem dialogs_get_next_takes_oldest (c : Ctx) :
  (js_truthy (prop "__webdriverConfirms" (page_of c)) = false ->
   dialogs_get_next_confirm c = (inr JNull, c))
  /\ (prop "__webdriverConfirms" (page_of c) = JArr [] ->
      dialogs_get_next_confirm c = (inr JUndefined, c))
  /\ (forall v q, prop "__webdriverConfirms" (page_of c) = JArr (v :: q) ->
      dialogs_get_next_confirm c
      = (inr v, with_prop c "__webdriverConfirms" (JArr q)))
  /\ (js_truthy (prop "__webdriverPrompts" (page_of c)) = false ->
      dialogs_get_next_prompt c = (inr JNull, c))
  /\ (prop "__webdriverPrompts" (page_of c) = JArr [] ->
      dialogs_get_next_prompt c = (inr JUndefined, c))
  /\ (forall v q, prop "__webdriverPrompts" (page_of c) = JArr (v :: q) ->
      dialogs_get_next_prompt c
      = (inr v, with_prop c "__webdriverPrompts" (JArr q))).
Proof.
  unfold dialogs_get_next_confirm, dialogs_get_next_prompt, _get_driver,
    Driver.execute_script, zoom.
  fold (page_of c). rewrite !take_oldest_eq.
  repeat split.
  - intros H. destruct (prop "__webdriverConfirms" (page_of c)) as [ | | [] | s | | ];
      cbn in H |- *; try discriminate H; try rewrite H; now rewrite ctx_page_id.
  - intros ->. now rewrite ctx_page_id.
  - intros v q ->. reflexivity.
  - intros H. destruct (prop "__webdriverPrompts" (page_of c)) as [ | | [] | s | | ];
      cbn in H |- *; try discriminate H; try rewrite H; now rewrite ctx_page_id.
  - intros ->. now rewrite ctx_page_id.
  - intros v q ->. reflexivity.
Qed.

Lemma replace_newlines_no_newline t : no_newline (replace_newlines t) = true.
Proof.
  unfold no_newline. induction t as [ | a t IH]; [reflexivity |].
  cbn [replace_newlines PyStr.all_chars]. rewrite IH, andb_true_r.
  destruct (Ascii.eqb a "010") eqn:E; [reflexivity | now rewrite E].
Qed.

Lemma replace_newlines_length t : String.length (replace_newlines t) = String.length t.
Proof. induction t as [ | a t IH]; [reflexivity |]. cbn. now rewrite IH. Qed.

Lemma replace_newlines_id t : no_newline t = true -> replace_newlines t = t.
Proof.
  unfold no_newline. induction t as [ | a t IH]; [reflexivity |].
  cbn [replace_newlines PyStr.all_chars]. intros [Ha Ht]%andb_prop.
  apply negb_true_iff in Ha. now rewrite Ha, IH.
Qed.

(** X18: [dialogs_get_next_alert] on a queue that starts with a text
    returns the text with every line feed turned into a space: the result
    has the length of the text and no line feed, and a text without line
    feeds comes back as it is.  The text is taken off the queue. *)
Theorem dialogs_get_next_alert_normalises_newlines
    (text : string) (q : list jsval) (c : Ctx) :
  text <> EmptyString ->
  prop "__webdriverAlerts" (page_of c) = JArr (JStr text :: q) ->
  dialogs_get_next_alert c
  = (inr (JStr (replace_newlines text)), with_prop c "__webdriverAlerts" (JArr q))
  /\ no_newline (replace_newlines text) = true
  /\ String.length (replace_newlines text) = String.length text
  /\ (no_newline text = true -> replace_newlines text = text).
Proof.
  intros Hne Hq. split; [ | split; [apply replace_newlines_no_newline
                       | split; [apply replace_newlines_length | apply replace_newlines_id]]].
  unfold dialogs_get_next_alert, _get_driver, Driver.execute_script, zoom.
  fold (page_of c). unfold bind at 1, gets at 1. rewrite Hq. cbn [js_truthy negb].
  unfold bind at 1. rewrite shift_eq, Hq.
  destruct text as [ | a t]; [contradiction |]. reflexivity.
Qed.

(** The hooked confirm with a pending answer: the answer is returned, no
    dialog is shown, the message is queued and the answer is used up. *)
Lemma hook_confirm_pending fuel msg q p b :
  prop "confirm" p = JFun HookConfirm ->
  prop "__webdriverConfirms" p = JArr q ->
  prop "__webdriverNextConfirm" p = JBool b ->
  window_confirm (S fuel) msg p
  = (inr (JBool b),
     page_with (page_with p "__webdriverConfirms" (JArr (q ++ [msg])))
               "__webdriverNextConfirm" JNull).
Proof.
  intros Hc Hq Hn. unfold window_confirm. unfold bind at 1, gets at 1. rewrite Hc.
  cbn [call arg nth]. unfold bind at 1, push at 1, bind at 1, gets at 1. rewrite Hq.
  unfold assign at 1, modify at 1. fold (page_with p "__webdriverConfirms" (JArr (q ++ [msg]))).
  unfold bind at 1, gets at 1. rewrite prop_page_with_ne by discriminate. rewrite Hn.
  reflexivity.
Qed.

(** The hooked confirm with nothing pending: the browser's own confirm
    shows its dialog and its answer is returned; the message is queued. *)
Lemma hook_confirm_native fuel msg q p :
  confirm_hooked p q ->
  prop "__webdriverNextConfirm" p = JNull ->
  window_confirm (S (S fuel)) msg p
  = (inr (JBool (user_confirm p msg)),
     show (ConfirmDialog msg) (page_with p "__webdriverConfirms" (JArr (q ++ [msg])))).
Proof.
  intros (Hc & Hq & Hp) Hn. unfold window_confirm. unfold bind at 1, gets at 1.
  rewrite Hc. cbn [call arg nth]. unfold bind at 1, push at 1, bind at 1, gets at 1.
  rewrite Hq. unfold assign at 1, modify at 1.
  fold (page_with p "__webdriverConfirms" (JArr (q ++ [msg]))).
  unfold bind at 1, gets at 1. rewrite prop_page_with_ne by discriminate. rewrite Hn.
  cbn [is_null]. unfold bind at 1, gets at 1.
  rewrite prop_page_with_ne by discriminate. rewrite Hp. reflexivity.
Qed.

(** X19: after [dialogs_answer_on_next_confirm], with the overrides in
    place, the next [window.confirm] shows no dialog and returns [true] for
    an argument that is ["#ok"] up to letter case and [false] for any other;
    its message is queued and the answer is used up.  The confirm after that
    one goes to the browser's own dialog and returns what the user answers. *)
Theorem confirm_after_answer_returns_it_once
    (value : string) (msg msg2 : jsval) (q : list jsval) (fuel : nat) (c : Ctx) :
  confirm_hooked (page_of c) q ->
  let c1 := snd (dialogs_answer_on_next_confirm value c) in
  let first := window_confirm (S fuel) msg (page_of c1) in
  let second := window_confirm (S (S fuel)) msg2 (snd first) in
  fst first = inr (JBool (String.eqb (PyStr.lower value) "#ok"))
  /\ dialogs (snd first) = dialogs (page_of c)
  /\ prop "__webdriverConfirms" (snd first) = JArr (q ++ [msg])
  /\ prop "__webdriverNextConfirm" (snd first) = JNull
  /\ fst second = inr (JBool (user_confirm (page_of c) msg2))
  /\ dialogs (snd second) = dialogs (page_of c) ++ [ConfirmDialog msg2]
  /\ prop "__webdriverConfirms" (snd second) = JArr ((q ++ [msg]) ++ [msg2]).
Proof.
  intros (Hc & Hq & Hp) c1 first second.
  set (b := String.eqb (PyStr.lower value) "#ok").
  assert (c1 = with_prop c "__webdriverNextConfirm" (JBool b)) as Ec1.
  { subst c1 b. unfold dialogs_answer_on_next_confirm.
    destruct (String.eqb (PyStr.lower value) "#ok"); reflexivity. }
  assert (first
          = (inr (JBool b),
             page_with (page_with (page_of c1) "__webdriverConfirms" (JArr (q ++ [msg])))
                       "__webdriverNextConfirm" JNull)) as E1.
  { subst first. rewrite Ec1. apply hook_confirm_pending.
    - rewrite prop_with_prop_ne by discriminate. exact Hc.
    - rewrite prop_with_prop_ne by discriminate. exact Hq.
    - apply prop_with_prop. }
  assert (confirm_hooked (snd first) (q ++ [msg])
          /\ prop "__webdriverNextConfirm" (snd first) = JNull) as (Hh & Hn).
  { rewrite E1, Ec1. cbn [snd]. unfold confirm_hooked.
    rewrite prop_page_with, !prop_page_with_ne by discriminate.
    rewrite prop_page_with, !prop_page_with_ne by discriminate.
    rewrite !prop_with_prop_ne by discriminate. repeat split; assumption. }
  assert (second
          = (inr (JBool (user_confirm (snd first) msg2)),
             show (ConfirmDialog msg2)
               (page_with (snd first) "__webdriverConfirms"
                  (JArr ((q ++ [msg]) ++ [msg2]))))) as E2.
  { subst second. now apply hook_confirm_native. }
  destruct Hh as (_ & Hq1 & _).
  rewrite E2. cbn [fst snd].
  split; [now rewrite E1 |]. split; [now rewrite E1, Ec1 |].
  split; [exact Hq1 |]. split; [exact Hn |].
  split; [now rewrite E1, Ec1 |]. split; [now rewrite E1, Ec1 |].
  unfold prop. cbn [window show page_with set_window]. now rewrite lookup_insert_eq.
Qed.

(** The hooked prompt: it returns what [window.__webdriverNextPrompt]
    holds, shows no dialog, queues [msg || def] and sets the slot to [true]. *)
Lemma hook_prompt_eq fuel msg def q p :
  prop "prompt" p = JFun HookPrompt ->
  prop "__webdriverPrompts" p = JArr q ->
  window_prompt (S fuel) msg def p
  = (inr (prop "__webdriverNextPrompt" p),
     page_with (page_with p "__webdriverPrompts" (JArr (q ++ [js_or msg def])))
               "__webdriverNextPrompt" (JBool true)).
Proof.
  intros Hf Hq. unfold window_prompt. unfold bind at 1, gets at 1. rewrite Hf.
  cbn [call arg nth]. unfold bind at 1, push at 1, bind at 1, gets at 1. rewrite Hq.
  unfold assign at 1, modify at 1.
  fold (page_with p "__webdriverPrompts" (JArr (q ++ [js_or msg def]))).
  unfold bind at 1, gets at 1. rewrite prop_page_with_ne by discriminate.
  reflexivity.
Qed.

(** X20: [dialogs_replace] initialises [window.__webdriverNextPrompts],
    while the prompt it installs reads [window.__webdriverNextPrompt].  So
    the first [window.prompt] after the installation returns whatever the
    page had in [__webdriverNextPrompt] before ([undefined] when it had
    nothing there), not [true]; the prompt after it returns [true].  Neither
    shows a dialog, and both queue [msg || def]. *)
Theorem first_prompt_after_replace_reads_unset_slot
    (msg def msg2 def2 : jsval) (fuel : nat) (c : Ctx) :
  js_truthy (prop "__webdriverAlerts" (page_of c)) = false ->
  let p := page_of (snd (dialogs_replace c)) in
  let first := window_prompt (S fuel) msg def p in
  let second := window_prompt (S fuel) msg2 def2 (snd first) in
  prop "__webdriverNextPrompts" p = JBool true
  /\ fst first = inr (prop "__webdriverNextPrompt" (page_of c))
  /\ fst second = inr (JBool true)
  /\ dialogs (snd second) = dialogs (page_of c)
  /\ prop "__webdriverPrompts" (snd second) = JArr [js_or msg def; js_or msg2 def2].
Proof.
  intros Hs p first second.
  assert (p = set_window (page_of c) (installed (window (page_of c)))) as Ep.
  { subst p. rewrite dialogs_replace_eq, Hs. reflexivity. }
  assert (prop "prompt" p = JFun HookPrompt /\ prop "__webdriverPrompts" p = JArr []
          /\ prop "__webdriverNextPrompts" p = JBool true
          /\ prop "__webdriverNextPrompt" p = prop "__webdriverNextPrompt" (page_of c))
    as (Hf & Hq & Hss & Hslot).
  { rewrite Ep. unfold prop, installed. cbn [window set_window].
    repeat split;
      repeat first [ rewrite lookup_insert_eq; reflexivity
                   | rewrite (lookup_insert_ne (M := gmap string)) by discriminate ];
      reflexivity. }
  assert (first = (inr (prop "__webdriverNextPrompt" (page_of c)),
                   page_with (page_with p "__webdriverPrompts" (JArr [js_or msg def]))
                             "__webdriverNextPrompt" (JBool true))) as E1.
  { subst first. rewrite (hook_prompt_eq _ _ _ []) by assumption. now rewrite Hslot. }
  assert (second = (inr (JBool true),
                    page_with (page_with (snd first) "__webdriverPrompts"
                                 (JArr [js_or msg def; js_or msg2 def2]))
                              "__webdriverNextPrompt" (JBool true))) as E2.
  { subst second. rewrite (hook_prompt_eq _ _ _ [js_or msg def]).
    - rewrite E1. cbn [snd]. now rewrite prop_page_with.
    - rewrite E1. cbn [snd]. now rewrite !prop_page_with_ne by discriminate.
    - rewrite E1. cbn [snd]. rewrite prop_page_with_ne by discriminate.
      apply prop_page_with. }
  split; [exact Hss |]. split; [now rewrite E1 |]. split; [now rewrite E2 |].
  rewrite E2. cbn [snd]. split.
  - rewrite E1, Ep. reflexivity.
  - rewrite prop_page_with_ne by discriminate. apply prop_page_with.
Qed.

Lemma prop_array_lookup name p q :
  prop name p = JArr q -> window p !! name = Some (JArr q).
Proof.
  unfold prop. destruct (window p !! name) as [v | ]; cbn; [now intros -> | discriminate].
Qed.

Lemma all_confirmed_nil p q :
  prop "__webdriverConfirms" p = JArr q -> all_confirmed p q [] = p.
Proof.
  intros H%prop_array_lookup. unfold all_confirmed. cbn [map].
  rewrite !app_nil_r, insert_id by exact H. now destruct p.
Qed.

Lemma confirm_all ms : forall q p,
  confirm_hooked p q ->
  prop "__webdriverNextConfirm" p = JNull ->
  each (window_confirm 2) ms p
  = (inr (map (fun m => JBool (user_confirm p m)) ms), all_confirmed p q ms).
Proof.
  induction ms as [ | m ms IH]; intros q p Hh Hn.
  - cbn [each map]. destruct Hh as (_ & Hq & _). now rewrite all_confirmed_nil.
  - cbn [each map]. unfold bind at 1. rewrite (hook_confirm_native 0 m q p Hh Hn).
    set (p1 := show (ConfirmDialog m)
                 (page_with p "__webdriverConfirms" (JArr (q ++ [m])))).
    assert (confirm_hooked p1 (q ++ [m]) /\ prop "__webdriverNextConfirm" p1 = JNull)
      as (Hh1 & Hn1).
    { destruct Hh as (Hc & Hq & Hp). unfold confirm_hooked, p1, prop in *.
      cbn [window show page_with set_window].
      repeat split;
        repeat first [ rewrite lookup_insert_eq; reflexivity
                     | rewrite (lookup_insert_ne (M := gmap string)) by discriminate ];
        assumption. }
    unfold bind at 1. rewrite (IH (q ++ [m]) p1 Hh1 Hn1). cbn [ret].
    f_equal. unfold all_confirmed, p1. cbn [window dialogs user_confirm user_prompt
      show page_with set_window map].
    rewrite insert_insert_eq, <- !app_assoc. reflexivity.
Qed.

Lemma dialogs_get_next_confirm_eq c :
  dialogs_get_next_confirm c
  = let '(r, p) :=
      match prop "__webdriverConfirms" (page_of c) with
      | JArr [] => (inr JUndefined, page_of c)
      | JArr (v :: items) =>
          (inr v, page_with (page_of c) "__webdriverConfirms" (JArr items))
      | v => if js_truthy v then (inl JsTypeError, page_of c)
             else (inr JNull, page_of c)
      end in
    (r, set_driver c (set_current_page (driver c) p)).
Proof.
  unfold dialogs_get_next_confirm, _get_driver, Driver.execute_script, zoom, page_of.
  rewrite take_oldest_eq.
  destruct (prop "__webdriverConfirms" (current_page (driver c)))
    as [ | | [] | s | [ | v items] | f ]; try reflexivity.
  cbn [js_truthy]. now destruct (negb _).
Qed.

Lemma with_prop_twice c name v w :
  with_prop (with_prop c name v) name w = with_prop c name w.
Proof.
  unfold with_prop, page_of. cbn [driver set_driver current_page set_current_page
    window set_window]. now rewrite insert_insert_eq.
Qed.

Lemma with_prop_same c name q :
  prop name (page_of c) = JArr q -> with_prop c name (JArr q) = c.
Proof.
  intros H%prop_array_lookup. unfold with_prop. rewrite insert_id by exact H.
  unfold page_of. destruct c as [ts d]. destruct d as [? ? ? ? ? ? ? p]. now destruct p.
Qed.

Lemma drain_confirms ms : forall rest c,
  prop "__webdriverConfirms" (page_of c) = JArr (ms ++ rest) ->
  each (fun _ : unit => dialogs_get_next_confirm) (replicate (length ms) tt) c
  = (inr ms, with_prop c "__webdriverConfirms" (JArr rest)).
Proof.
  induction ms as [ | m ms IH]; intros rest c Hq.
  - cbn [length replicate each]. now rewrite with_prop_same.
  - cbn [length replicate each]. unfold bind at 1.
    rewrite dialogs_get_next_confirm_eq, Hq. cbn [app].
    rewrite with_prop_page. unfold bind at 1.
    rewrite (IH rest) by apply prop_with_prop.
    now rewrite with_prop_twice.
Qed.

(** X21: the confirm queue is first in, first out.  With the overrides in
    place, an empty queue and no answer pending, after the page has called
    [window.confirm] with the messages [ms] in turn, as many calls of
    [dialogs_get_next_confirm] return exactly [ms], in that order, and leave
    the queue empty; each of the confirms went to the browser's own dialog. *)
Theorem confirms_come_back_in_order (ms : list jsval) (c : Ctx) :
  confirm_hooked (page_of c) [] ->
  prop "__webdriverNextConfirm" (page_of c) = JNull ->
  let run := (in_page (each (window_confirm 2) ms);;
              each (fun _ : unit => dialogs_get_next_confirm)
                   (replicate (length ms) tt)) c in
  fst run = inr ms
  /\ prop "__webdriverConfirms" (page_of (snd run)) = JArr []
  /\ dialogs (page_of (snd run)) = dialogs (page_of c) ++ map ConfirmDialog ms.
Proof.
  intros Hh Hn.
  set (c1 := set_driver c (set_current_page (driver c) (all_confirmed (page_of c) [] ms))).
  assert (prop "__webdriverConfirms" (page_of c1) = JArr (ms ++ [])) as Hq.
  { unfold c1, page_of, prop, all_confirmed.
    cbn [driver set_driver current_page set_current_page window].
    rewrite lookup_insert_eq. cbn [default from_option id app].
    now rewrite app_nil_r. }
  assert ((in_page (each (window_confirm 2) ms);;
           each (fun _ : unit => dialogs_get_next_confirm)
                (replicate (length ms) tt)) c
          = (inr ms, with_prop c1 "__webdriverConfirms" (JArr []))) as E.
  { unfold bind at 1. unfold in_page, _get_driver, Driver.execute_script, zoom.
    fold (page_of c). rewrite (confirm_all ms [] (page_of c) Hh Hn). fold c1.
    apply (drain_confirms ms [] c1 Hq). }
  intros run. subst run. rewrite E. cbn [fst snd].
  split; [reflexivity |]. split; [apply prop_with_prop |]. reflexivity.
Qed.

(** ** Flow markers *)

Lemma append_handler_eq key f h :
  append_handler key f h
  = match transaction_handlers h !! key with
    | Some fs => (inr tt, registered h (<[key := fs ++ [f]]> (transaction_handlers h)))
    | None => (inl (KeyError key), h)
    end.
Proof.
  unfold append_handler, get_transaction_handlers, set_transaction_handlers,
    bind, gets, modify.
  destruct (transaction_handlers h !! key); reflexivity.
Qed.

Lemma add_flow_markers_eq h es xs :
  transaction_handlers h !! "enter" = Some es ->
  transaction_handlers h !! "exit" = Some xs ->
  add_flow_markers h
  = (inr tt, registered h (<["exit" := xs ++ [SendExitFlowMarker]]>
                           (<["enter" := es ++ [SendStartFlowMarker]]>
                            (transaction_handlers h)))).
Proof.
  intros He Hx. unfold add_flow_markers. unfold bind at 1.
  rewrite append_handler_eq, He. unfold bind at 1. rewrite append_handler_eq.
  cbn [transaction_handlers registered].
  rewrite lookup_insert_ne by discriminate. rewrite Hx. reflexivity.
Qed.

(** X22: [add_flow_markers] appends.  With an [enter] and an [exit] list
    in the registry, the start callback goes to the end of the [enter] list
    and the exit callback to the end of the [exit] list; what the lists held
    stays, in order, the other lists of the registry stay, and nothing else
    of the harness changes.  A second call appends both callbacks again. *)
Theorem add_flow_markers_appends (h : Harness) (es xs : list callback) :
  transaction_handlers h !! "enter" = Some es ->
  transaction_handlers h !! "exit" = Some xs ->
  let once := add_flow_markers h in
  let twice := (add_flow_markers;; add_flow_markers) h in
  fst once = inr tt
  /\ transaction_handlers (snd once) !! "enter" = Some (es ++ [SendStartFlowMarker])
  /\ transaction_handlers (snd once) !! "exit" = Some (xs ++ [SendExitFlowMarker])
  /\ (forall k, k <> "enter" -> k <> "exit" ->
      transaction_handlers (snd once) !! k = transaction_handlers h !! k)
  /\ snd once = registered h (transaction_handlers (snd once))
  /\ fst twice = inr tt
  /\ transaction_handlers (snd twice) !! "enter"
     = Some (es ++ [SendStartFlowMarker; SendStartFlowMarker])
  /\ transaction_handlers (snd twice) !! "exit"
     = Some (xs ++ [SendExitFlowMarker; SendExitFlowMarker]).
Proof.
  intros He Hx once twice.
  assert (once = (inr tt, registered h (<["exit" := xs ++ [SendExitFlowMarker]]>
                           (<["enter" := es ++ [SendStartFlowMarker]]>
                            (transaction_handlers h))))) as E1
    by now apply add_flow_markers_eq.
  assert (transaction_handlers (snd once) !! "enter" = Some (es ++ [SendStartFlowMarker])
          /\ transaction_handlers (snd once) !! "exit" = Some (xs ++ [SendExitFlowMarker]))
    as (He1 & Hx1).
  { rewrite E1. cbn [snd transaction_handlers registered]. split.
    - rewrite lookup_insert_ne by discriminate. apply lookup_insert_eq.
    - apply lookup_insert_eq. }
  assert (twice = add_flow_markers (snd once)) as E2.
  { subst twice. unfold bind. fold once. now rewrite E1. }
  rewrite E2, (add_flow_markers_eq (snd once) _ _ He1 Hx1).
  cbn [fst snd transaction_handlers registered].
  split; [now rewrite E1 |]. split; [exact He1 |]. split; [exact Hx1 |].
  split; [ | split; [now rewrite E1 | split; [reflexivity | split]]].
  - intros k Hk1 Hk2. rewrite E1. cbn [snd transaction_handlers registered].
    now rewrite !lookup_insert_ne by congruence.
  - rewrite lookup_insert_ne by discriminate. rewrite lookup_insert_eq.
    now rewrite <- app_assoc.
  - rewrite lookup_insert_eq. now rewrite <- app_assoc.
Qed.

(** X23: [add_flow_markers] on a registry without an [enter] list ends
    with a [KeyError] for [enter] and changes nothing; without an [exit]
    list (and with an [enter] list) it ends with a [KeyError] for [exit]. *)
Theorem add_flow_markers_missing_list_raises (h : Harness) :
  (transaction_handlers h !! "enter" = None ->
   add_flow_markers h = (inl (KeyError "enter"), h))
  /\ (transaction_handlers h !! "enter" <> None ->
      transaction_handlers h !! "exit" = None ->
      fst (add_flow_markers h) = inl (KeyError "exit")).
Proof.
  split.
  - intros He. unfold add_flow_markers. unfold bind at 1.
    now rewrite append_handler_eq, He.
  - intros He Hx. unfold add_flow_markers. unfold bind at 1.
    rewrite append_handler_eq.
    destruct (transaction_handlers h !! "enter") as [es | ]; [ | contradiction].
    unfold bind at 1. rewrite append_handler_eq.
    cbn [transaction_handlers registered].
    rewrite lookup_insert_ne by discriminate. now rewrite Hx.
Qed.

Lemma harness_session_eta h : set_session h (session h) = h.
Proof. now destruct h. Qed.

Lemma from_store_eq name h : from_store name h = (inr (stored h name), h).
Proof.
  unfold from_store, zoom, get_from_thread_store, gets. now rewrite harness_session_eta.
Qed.

Lemma _send_marker_eq stage params h :
  _send_marker stage params h
  = (inr tt, sent h ("/* FLOW_MARKER test-case-" +:+ stage +:+ " */") params).
Proof.
  unfold _send_marker, execute_comment, bind, zoom, _get_driver, Driver.execute_script,
    ret, modify.
  cbn [fst snd]. unfold sent. cbn. f_equal. f_equal.
  destruct h as [[ts d] ? ? ?]. cbn. f_equal. destruct d. reflexivity.
Qed.

(** X24: the start callback sends one script, the comment
    ["/* FLOW_MARKER test-case-start */"], and changes nothing else.  Its
    parameters hold the test case under [testCaseName]; under
    [testSuiteName] the scenario name when that is truthy and the test suite
    otherwise; the iteration under [testDataIterationId] exactly when
    [data_sources] is truthy; and no other key.  A name missing from the
    store gives [None]. *)
Theorem send_start_flow_marker_params (h : Harness) :
  exists params,
    _send_start_flow_marker h
    = (inr tt, sent h "/* FLOW_MARKER test-case-start */" params)
    /\ params !! "testCaseName" = Some (stored h "test_case")
    /\ params !! "testSuiteName"
       = Some (if truthy (stored h "scenario_name") then stored h "scenario_name"
               else stored h "test_suite")
    /\ params !! "testDataIterationId"
       = (if truthy (stored h "data_sources") then Some (iteration h) else None)
    /\ forall k, k <> "testCaseName" -> k <> "testSuiteName" ->
                 k <> "testDataIterationId" -> params !! k = None.
Proof.
  unfold _send_start_flow_marker. unfold bind at 1. rewrite from_store_eq.
  unfold bind at 1. rewrite from_store_eq. unfold bind at 1. rewrite from_store_eq.
  unfold bind at 1. rewrite from_store_eq. unfold bind at 1.
  destruct (truthy (stored h "data_sources")).
  - unfold bind at 1, gets, ret. rewrite _send_marker_eq. eexists. split; [reflexivity |].
    split; [reflexivity |]. split; [reflexivity |]. split; [reflexivity |].
    intros k H1 H2 H3. rewrite !lookup_insert_ne by congruence. apply lookup_empty.
  - unfold ret. rewrite _send_marker_eq. eexists. split; [reflexivity |].
    split; [reflexivity |]. split; [reflexivity |]. split; [reflexivity |].
    intros k H1 H2 H3. rewrite !lookup_insert_ne by congruence. apply lookup_empty.
Qed.

(** X25: the exit callback sends one script, the comment
    ["/* FLOW_MARKER test-case-stop */"], with the stored status under
    [status], the stored message under [message] and no other key, and
    changes nothing else. *)
Theorem send_exit_flow_marker_params (h : Harness) :
  exists params,
    _send_exit_flow_marker h
    = (inr tt, sent h "/* FLOW_MARKER test-case-stop */" params)
    /\ params !! "status" = Some (stored h "status")
    /\ params !! "message" = Some (stored h "message")
    /\ forall k, k <> "status" -> k <> "message" -> params !! k = None.
Proof.
  unfold _send_exit_flow_marker. unfold bind at 1. rewrite from_store_eq.
  unfold bind at 1. rewrite from_store_eq. rewrite _send_marker_eq.
  eexists. split; [reflexivity |]. split; [reflexivity |]. split; [reflexivity |].
  intros k H1 H2. rewrite !lookup_insert_ne by congruence. apply lookup_empty.
Qed.

(** ** The further properties on the sample session *)

Lemma get_locator_returns_only_a_matching_candidate_witness :
  implicit_wait (driver (snd (get_locator [[("css", "miss")]; [("ID", "hit")]]
                                 false Sample.context))) = PyInt 30.
Proof.
  apply (get_locator_returns_only_a_matching_candidate
           [[("css", "miss")]; [("ID", "hit")]] false Sample.context
           (snd (get_locator [[("css", "miss")]; [("ID", "hit")]] false Sample.context))
           ("id", "hit")).
  reflexivity.
Defined.

Lemma get_locator_unknown_strategy_leaves_wait_witness :
  get_locator [[("foo", "hit")]; [("id", "hit")]] false Sample.context
  = (inl (KeyError "foo"), Sample.context).
Proof.
  apply (proj1 (get_locator_unknown_strategy_leaves_wait
                  "foo" "hit" [] [[("id", "hit")]] false Sample.context eq_refl)).
Defined.

Lemma switch_by_idx_never_switches_witness :
  fst (WindowManager._switch_by_idx (-1) Sample.manager)
  = inl (NoSuchWindowException "Invalid Window ID: -1").
Proof.
  apply (proj2 (proj2 (switch_by_idx_never_switches (-1) Sample.manager))).
  cbn. lia.
Defined.

Lemma switch_without_name_focuses_last_witness :
  WindowManager.switch None Sample.manager = (inr tt, refocused Sample.manager "w1").
Proof.
  apply (switch_without_name_focuses_last None Sample.manager). left. reflexivity.
Defined.

Lemma switch_by_window_name_witness :
  WindowManager.switch (Some "w1") Sample.manager
  = (inr tt, refocused Sample.manager "w1").
Proof.
  apply (switch_by_window_name "w1" Sample.manager); [discriminate | reflexivity ..].
Defined.

Lemma switch_alias_to_closed_window_fails_witness :
  WindowManager.switch (Some "win_ser_abc") Sample2.stale_manager
  = (inl (NoSuchWindowException "Invalid Window ID: win_ser_abc"), Sample2.stale_manager).
Proof.
  apply (switch_alias_to_closed_window_fails "win_ser_abc" "gone" Sample2.stale_manager);
    [reflexivity | discriminate | reflexivity |].
  intros H%list_elem_of_In. cbn in H. intuition discriminate.
Defined.

Lemma switch_new_alias_without_windows_fails_witness :
  WindowManager.switch (Some "win_ser_abc") Sample2.windowless_manager
  = (inl IndexError, Sample2.windowless_manager).
Proof.
  apply (switch_new_alias_without_windows_fails "win_ser_abc" Sample2.windowless_manager);
    [reflexivity | discriminate | reflexivity | reflexivity].
Defined.

Lemma switch_failure_changes_nothing_witness :
  snd (WindowManager.switch (Some "nowhere") Sample.manager) = Sample.manager.
Proof.
  apply (switch_failure_changes_nothing (Some "nowhere") Sample.manager
           (NoSuchWindowException "Invalid Window ID: nowhere")).
  reflexivity.
Defined.

Lemma switch_success_focuses_open_window_witness :
  focus_of (refocused Sample.manager "w1") ∈ handles_of (refocused Sample.manager "w1").
Proof.
  apply (switch_success_focuses_open_window None Sample.manager
           (refocused Sample.manager "w1")).
  reflexivity.
Defined.

Lemma switch_invalid_window_names_argument_witness :
  "Invalid Window ID: nowhere" = "Invalid Window ID: " +:+ percent_s (Some "nowhere").
Proof.
  apply (switch_invalid_window_names_argument (Some "nowhere") Sample.manager
           "Invalid Window ID: nowhere").
  reflexivity.
Defined.


Lemma frame_switch_moves_only_the_frame_focus_witness :
  snd (FrameManager.switch (Some "nowhere") Sample.context) = Sample.context.
Proof.
  apply (proj2 (frame_switch_moves_only_the_frame_focus (Some "nowhere") Sample.context)
           (NoSuchFrameException "Invalid Frame ID: nowhere")).
  reflexivity.
Defined.

Lemma frame_switch_parent_undoes_index_witness :
  (FrameManager.switch (Some "index=0");;
   FrameManager.switch (Some "relative=parent")) Sample.context
  = (inr tt, Sample.context).
Proof.
  apply (proj1 (frame_switch_parent_undoes_index 0 Sample.context)). reflexivity.
Defined.

Lemma dialogs_get_next_takes_oldest_witness :
  dialogs_get_next_confirm Sample.context = (inr JNull, Sample.context)
  /\ dialogs_get_next_confirm hooked_context = (inr JUndefined, hooked_context).
Proof.
  split.
  - apply (proj1 (dialogs_get_next_takes_oldest Sample.context)). reflexivity.
  - apply (proj1 (proj2 (dialogs_get_next_takes_oldest hooked_context))). reflexivity.
Defined.

Lemma dialogs_get_next_alert_normalises_newlines_witness :
  fst (dialogs_get_next_alert Sample2.alerted_context) = inr (JStr "a b").
Proof.
  rewrite (proj1 (dialogs_get_next_alert_normalises_newlines
                    Sample2.two_lines [] Sample2.alerted_context
                    ltac:(discriminate) eq_refl)).
  reflexivity.
Defined.

Lemma confirm_after_answer_returns_it_once_witness :
  fst (window_confirm 1 (JStr "sure?")
         (page_of (snd (dialogs_answer_on_next_confirm "#cancel" hooked_context))))
  = inr (JBool false).
Proof.
  apply (confirm_after_answer_returns_it_once
           "#cancel" (JStr "sure?") (JStr "again?") [] 0 hooked_context).
  repeat split; reflexivity.
Defined.

Lemma first_prompt_after_replace_reads_unset_slot_witness :
  fst (window_prompt 1 (JStr "name?") (JStr "nobody")
         (page_of (snd (dialogs_replace Sample.context))))
  = inr JUndefined.
Proof.
  pose proof (first_prompt_after_replace_reads_unset_slot
                (JStr "name?") (JStr "nobody") (JStr "age?") JUndefined 0
                Sample.context eq_refl) as H.
  cbv zeta in H. destruct H as (_ & H & _). exact H.
Defined.

Lemma confirms_come_back_in_order_witness :
  fst ((in_page (each (window_confirm 2) [JStr "one"; JStr "two"]);;
        each (fun _ : unit => dialogs_get_next_confirm) (replicate 2 tt)) hooked_context)
  = inr [JStr "one"; JStr "two"].
Proof.
  apply (confirms_come_back_in_order [JStr "one"; JStr "two"] hooked_context);
    [repeat split; reflexivity | reflexivity].
Defined.

Lemma add_flow_markers_appends_witness :
  transaction_handlers (snd (add_flow_markers Sample2.harness)) !! "enter"
  = Some [OtherCallback "log"; SendStartFlowMarker].
Proof.
  apply (add_flow_markers_appends Sample2.harness [OtherCallback "log"] []);
    reflexivity.
Defined.

Lemma add_flow_markers_missing_list_raises_witness :
  add_flow_markers Sample2.bare_harness = (inl (KeyError "enter"), Sample2.bare_harness).
Proof.
  apply (proj1 (add_flow_markers_missing_list_raises Sample2.bare_harness)).
  reflexivity.
Defined.

Lemma get_locator_only_waits_and_looks_up_witness :
  only_waited_and_looked_up Sample.context
    (snd (get_locator [[("css", "miss")]; [("foo", "hit")]] true Sample.context)).
Proof.
  exact (get_locator_only_waits_and_looks_up
           [[("css", "miss")]; [("foo", "hit")]] true Sample.context).
Defined.

Lemma switch_win_ser_local_focuses_first_witness :
  WindowManager.switch (Some "win_ser_local") Sample.manager
  = (inr tt, refocused Sample.manager "w0")
  /\ WindowManager.switch (Some "win_ser_local") Sample2.windowless_manager
     = (inl (NoSuchWindowException "Invalid Window ID: win_ser_local"),
        Sample2.windowless_manager).
Proof.
  split.
  - exact (switch_win_ser_local_focuses_first Sample.manager).
  - exact (switch_win_ser_local_focuses_first Sample2.windowless_manager).
Defined.

Lemma frame_switch_index_reads_first_field_witness :
  FrameManager.switch (Some "index=abc") Sample.context = (inl ValueError, Sample.context)
  /\ FrameManager.switch (Some "index=1=junk") Sample.context
     = (inr tt, focused Sample.context [1%nat])
  /\ FrameManager.switch (Some "index=-1") Sample.context
     = (inl (NoSuchFrameException "Invalid Frame ID: index=-1"), Sample.context)
  /\ FrameManager.switch (Some ("index=" +:+ String "031" "1")) Sample.context
     = (inl ValueError, Sample.context)
  /\ FrameManager.switch (Some "index= 1 ") Sample.context
     = (inr tt, focused Sample.context [1%nat]).
Proof.
  split; [ | split; [ | split; [ | split]]].
  - exact (frame_switch_index_reads_first_field "abc" Sample.context).
  - exact (frame_switch_index_reads_first_field "1=junk" Sample.context).
  - exact (frame_switch_index_reads_first_field "-1" Sample.context).
  - exact (frame_switch_index_reads_first_field (String "031" "1") Sample.context).
  - exact (frame_switch_index_reads_first_field " 1 " Sample.context).
Defined.

Lemma send_start_flow_marker_params_witness :
  exists params,
    _send_start_flow_marker Sample2.harness
    = (inr tt, sent Sample2.harness "/* FLOW_MARKER test-case-start */" params)
    /\ params !! "testSuiteName" = Some PyNone
    /\ params !! "testDataIterationId" = None.
Proof.
  destruct (send_start_flow_marker_params Sample2.harness)
    as (params & E & _ & Hsuite & Hiter & _).
  exists params. split; [exact E |]. split; [exact Hsuite | exact Hiter].
Defined.

Lemma send_exit_flow_marker_params_witness :
  exists params,
    _send_exit_flow_marker Sample2.harness
    = (inr tt, sent Sample2.harness "/* FLOW_MARKER test-case-stop */" params)
    /\ params !! "status" = Some PyNone.
Proof.
  destruct (send_exit_flow_marker_params Sample2.harness) as (params & E & Hs & _).
  exists params. split; [exact E | exact Hs].
Defined.


Lemma timeout_defaults_to_30_and_is_restored_witness :
  _get_timeout Sample.context = (inr (PyInt 30), Sample.context)
  /\ implicit_wait (driver (snd (get_locator [[("css", "miss")]] false Sample.context)))
     = PyInt 30
  /\ implicit_wait
       (driver (snd (get_locator [[("id", "hit")]] true
                       {| thread_store := <["timeout" := PyInt 0]> ∅;
                          driver := Sample.browser |})))
     = PyInt 0.
Proof.
  split; [ | split].
  - apply (proj1 (proj2 (timeout_defaults_to_30_and_is_restored Sample.context))).
    reflexivity.
  - apply (proj1 (proj2 (proj2 (proj2 (proj2
             (timeout_defaults_to_30_and_is_restored Sample.context)))))
             [[("css", "miss")]] false).
    exact I.
  - rewrite (proj1 (proj2 (proj2 (proj2 (proj2
               (timeout_defaults_to_30_and_is_restored
                  {| thread_store := <["timeout" := PyInt 0]> ∅;
                     driver := Sample.browser |})))))
               [[("id", "hit")]] true ltac:(vm_compute; exact I)).
    vm_compute. reflexivity.
Defined.

(** C8 as stated does not hold: the timeout is not the wait of the first
    lookup.  On the sample session the timeout is 30 and the one lookup of
    the call runs under the wait the driver had, 7. *)
Lemma timeout_as_initial_wait_counterexample :
  ambient_timeout Sample.context = PyInt 30
  /\ ~ (forall by_ value wait,
          In (by_, value, wait)
             (finds (driver (snd (get_locator [[("id", "hit")]] false Sample.context)))) ->
          wait = ambient_timeout Sample.context).
Proof.
  split; [reflexivity |].
  intros H. specialize (H "id" "hit" (PyInt 7) (or_introl eq_refl)).
  discriminate H.
Qed.
